(** * eudi: issuing and verifying an age credential backed by a Groth16 proof

    A shallow embedding of [main.go] (wallet, credential issuance and
    verification) and of the circuit file that accompanies it
    ([AgeCheckCircuit], [InitCircuit], [generateZKProof], [verifyZKProof]).

    The Go standard library and gnark are not part of the repository, so the
    parts of them the program runs through are modelled here from their
    documented behaviour:
    - [fmt.Sscanf] with the format ["%d"] and [strconv.ParseInt], on the
      runes that [unicode/utf8] decodes from the input string;
    - gnark's [frontend.API] operations [Sub], [Cmp] and [AssertIsEqual] over
      the scalar field of BN254, and [frontend.NewWitness];
    - the Groth16 backend, kept abstract behind the class [groth16.Backend]
      with the three laws the program relies on, and inhabited by an ideal
      instance that can be evaluated.

    Conventions: Go's [int] is 64 bits wide; the clock and the randomness of
    the backend are inputs; what the program prints is kept apart, in the
    functions named [_stdout] and in the command; receivers and pointer
    arguments are not nil, the [Proof] of a credential and the pointers that
    [issueCredential] returns apart. *)

From Stdlib Require Import ZArith NArith Lia List Ascii String.
From stdpp Require Import base option list strings gmap pretty.

Local Open Scope Z_scope.

(** ** Results of fallible Go calls *)

(** Go's [error] values.  [Errorf] is [fmt.Errorf(prefix + "%v", cause)];
    the other constructors are the errors of the libraries that the program
    propagates unchanged. *)
Inductive error : Type :=
  | errorString (msg : string)
  | Errorf (prefix : string) (cause : error)
  | ErrEOF                    (* io.EOF: no input left for the verb *)
  | ErrUnexpectedNewline      (* fmt: "unexpected newline" *)
  | ErrExpectedInteger        (* fmt: "expected integer" *)
  | ErrRange                  (* strconv: "value out of range" *)
  | ErrSyntax                 (* strconv: "invalid syntax" *)
  | ErrMissingAssignment      (* gnark: a circuit variable holds nil *)
  | ErrWitnessSize            (* gnark: witness does not fit the circuit *)
  | ErrUnsatisfied            (* gnark: "constraint is not satisfied" *)
  | ErrBackend (code : nat).  (* any other error of the proving backend *)

Inductive result (A : Type) : Type :=
  | Ok (a : A)
  | Err (e : error).
Arguments Ok {A} a.
Arguments Err {A} e.

Global Instance result_ret : MRet result := fun _ a => Ok a.
Global Instance result_bind : MBind result := fun _ _ f m =>
  match m with
  | Ok a => f a
  | Err e => Err e
  end.

Definition is_Ok {A} (r : result A) : Prop := exists a, r = Ok a.
Definition is_Err {A} (r : result A) : Prop := exists e, r = Err e.

(** A Go call either returns or panics (nil pointer dereference). *)
Inductive go (A : Type) : Type :=
  | Return (a : A)
  | Panic.
Arguments Return {A} a.
Arguments Panic {A}.

(** ** Strings and runes *)

Definition rune : Type := Z.

Module utf8.

Definition RuneError : rune := 0xFFFD.

Definition bytes (s : string) : list Z :=
  map (fun a => Z.of_N (N_of_ascii a)) (list_ascii_of_string s).

Definition inRange (lo hi b : Z) : bool := (lo <=? b) && (b <=? hi).
Definition cont (b : Z) : bool := inRange 0x80 0xBF b.

(** Size and accepted range of the second byte for a leading byte, as in
    the table [first] of [unicode/utf8]; [None] for ASCII and invalid. *)
Definition first (s0 : Z) : option (nat * (Z * Z)) :=
  if inRange 0xC2 0xDF s0 then Some (2%nat, (0x80, 0xBF))
  else if s0 =? 0xE0 then Some (3%nat, (0xA0, 0xBF))
  else if inRange 0xE1 0xEC s0 then Some (3%nat, (0x80, 0xBF))
  else if s0 =? 0xED then Some (3%nat, (0x80, 0x9F))
  else if inRange 0xEE 0xEF s0 then Some (3%nat, (0x80, 0xBF))
  else if s0 =? 0xF0 then Some (4%nat, (0x90, 0xBF))
  else if inRange 0xF1 0xF3 s0 then Some (4%nat, (0x80, 0xBF))
  else if s0 =? 0xF4 then Some (4%nat, (0x80, 0x8F))
  else None.

(** [DecodeRune] on a non-empty byte sequence: its first rune and the
    number of bytes of its encoding.  An invalid or truncated encoding
    gives [RuneError] and the size 1. *)
Definition DecodeRune (s0 : Z) (rest : list Z) : rune * nat :=
  match first s0 with
  | None => (if s0 <? 0x80 then s0 else RuneError, 1%nat)
  | Some (sz, (lo, hi)) =>
    match rest with
    | s1 :: r1 =>
      if negb (inRange lo hi s1) then (RuneError, 1%nat)
      else if (sz <=? 2)%nat
      then (Z.lor (Z.shiftl (Z.land s0 0x1F) 6) (Z.land s1 0x3F), 2%nat)
      else
        match r1 with
        | s2 :: r2 =>
          if negb (cont s2) then (RuneError, 1%nat)
          else if (sz <=? 3)%nat
          then (Z.lor (Z.lor (Z.shiftl (Z.land s0 0x0F) 12)
                             (Z.shiftl (Z.land s1 0x3F) 6))
                      (Z.land s2 0x3F), 3%nat)
          else
            match r2 with
            | s3 :: _ =>
              if negb (cont s3) then (RuneError, 1%nat)
              else (Z.lor (Z.lor (Z.lor (Z.shiftl (Z.land s0 0x07) 18)
                                        (Z.shiftl (Z.land s1 0x3F) 12))
                                 (Z.shiftl (Z.land s2 0x3F) 6))
                          (Z.land s3 0x3F), 4%nat)
            | [] => (RuneError, 1%nat)
            end
        | [] => (RuneError, 1%nat)
        end
    | [] => (RuneError, 1%nat)
    end
  end.

(** The runes a reader gets out of a byte sequence, one [DecodeRune] after
    the other; [skip] counts the bytes still to step over of the rune
    decoded last. *)
Fixpoint decode (skip : nat) (bs : list Z) : list rune :=
  match bs with
  | [] => []
  | s0 :: rest =>
    match skip with
    | S skip' => decode skip' rest
    | O => let '(r, size) := DecodeRune s0 rest in r :: decode (size - 1) rest
    end
  end.

Definition runes (s : string) : list rune := decode 0 (bytes s).

End utf8.

(** ** [strconv.ParseInt] on a token of decimal digits *)

Module strconv.

Definition isDigit (r : rune) : bool := (48 <=? r) && (r <=? 57).

Definition maxUint64 : Z := 2 ^ 64 - 1.

(** The loop of [ParseUint] for base 10 and bit size 64, with [n] the value
    accumulated so far.  [cutoff] is the smallest number whose tenfold
    exceeds [maxUint64]. *)
Definition cutoff : Z := maxUint64 / 10 + 1.

Fixpoint ParseUint_loop (n : Z) (s : list rune) : result Z :=
  match s with
  | [] => Ok n
  | c :: s' =>
    if negb (isDigit c) then Err ErrSyntax
    else
      let d := c - 48 in
      if cutoff <=? n then Err ErrRange
      else
        let n1 := n * 10 + d in
        if maxUint64 <? n1 then Err ErrRange
        else ParseUint_loop n1 s'
  end.

Definition ParseUint (s : list rune) : result Z :=
  match s with
  | [] => Err ErrSyntax
  | _ => ParseUint_loop 0 s
  end.

(** [ParseInt(s, 10, 64)]: an optional sign, then [ParseUint], then the
    range check against [1 << 63]. *)
Definition ParseInt (s : list rune) : result Z :=
  match s with
  | [] => Err ErrSyntax
  | s0 :: s' =>
    let neg := s0 =? 45 in
    let digits := if (s0 =? 43) || (s0 =? 45) then s' else s in
    match ParseUint digits with
    | Err ErrRange => Err ErrRange   (* the clamped value fails the check below *)
    | Err e => Err e
    | Ok un =>
      let cutoff := 2 ^ 63 in
      if negb neg && (cutoff <=? un) then Err ErrRange
      else if neg && (cutoff <? un) then Err ErrRange
      else Ok (if neg then - un else un)
    end
  end.

End strconv.

(** ** [fmt.Sscanf] with the format ["%d"] *)

Module fmt.

(** The table [space] of [fmt/scan.go]. *)
Definition space : list (Z * Z) :=
  [ (0x0009, 0x000d); (0x0020, 0x0020); (0x0085, 0x0085); (0x00a0, 0x00a0);
    (0x1680, 0x1680); (0x2000, 0x200a); (0x2028, 0x2029); (0x202f, 0x202f);
    (0x205f, 0x205f); (0x3000, 0x3000) ].

Fixpoint isSpace_in (tbl : list (Z * Z)) (rx : Z) : bool :=
  match tbl with
  | [] => false
  | (lo, hi) :: tbl' =>
    if rx <? lo then false
    else if rx <=? hi then true
    else isSpace_in tbl' rx
  end.

Definition isSpace (r : rune) : bool :=
  if 2 ^ 16 <=? r then false else isSpace_in space r.

(** A scan reads at most [hugeWid] runes of its input. *)
Definition hugeWid : Z := 2 ^ 30.

Fixpoint readable (limit : Z) (input : list rune) : list rune :=
  match input with
  | [] => []
  | r :: input' =>
    if limit <=? 0 then [] else r :: readable (limit - 1) input'
  end.

(** [SkipSpace] of a scan for which a newline is not a space ([Sscanf]):
    a newline is an error, a carriage return is a space like the others. *)
Fixpoint SkipSpace (input : list rune) : result (list rune) :=
  match input with
  | [] => Ok []
  | r :: input' =>
    if r =? 10 then Err ErrUnexpectedNewline
    else if isSpace r then SkipSpace input'
    else Ok input
  end.

Definition notEOF (input : list rune) : result unit :=
  match input with
  | [] => Err ErrEOF
  | _ => Ok ()
  end.

(** [accept ok]: consume the next rune into the token when [ok] holds of
    it. *)
Definition accept (ok : rune -> bool) (input : list rune)
  : option (rune * list rune) :=
  match input with
  | r :: input' => if ok r then Some (r, input') else None
  | [] => None
  end.

Definition sign (r : rune) : bool := (r =? 43) || (r =? 45).
Definition decimalDigits (r : rune) : bool := strconv.isDigit r.

(** The loop [for s.accept(digits) {}] of [scanNumber]: the digits read
    and the input left. *)
Fixpoint acceptAll (ok : rune -> bool) (input : list rune)
  : list rune * list rune :=
  match input with
  | r :: input' =>
    if ok r
    then let '(tok, rest) := acceptAll ok input' in (r :: tok, rest)
    else ([], input)
  | [] => ([], [])
  end.

Definition scanNumber (digits : rune -> bool) (input : list rune)
  : result (list rune * list rune) :=
  _ ← notEOF input;
  match accept digits input with
  | None => Err ErrExpectedInteger
  | Some (r, input') =>
    let '(tok, rest) := acceptAll digits input' in Ok (r :: tok, rest)
  end.

(** [scanInt] for the verb [d] and a 64-bit [int]: the value and the input
    left after the number. *)
Definition scanInt (input : list rune) : result (Z * list rune) :=
  input ← SkipSpace input;
  _ ← notEOF input;
  let '(buf, input) :=
    match accept sign input with
    | Some (r, input') => ([r], input')
    | None => ([], input)
    end in
  '(tok, rest) ← scanNumber decimalDigits input;
  i ← strconv.ParseInt (buf ++ tok);
  Ok (i, rest).

(** [Sscanf(str, "%d", &v)]: the value stored in [v].  What follows the
    number in [str] is not looked at. *)
Definition Sscanf (str : string) : result Z :=
  let input := readable hugeWid (utf8.runes str) in
  input ← SkipSpace input;
  '(v, _) ← scanInt input;
  Ok v.

(** [Sprintf("urn:uuid:%d", n)] *)
Definition Sprintf_urn_uuid (n : Z) : string := "urn:uuid:" +:+ pretty n.

End fmt.

(** ** The Go values the program handles *)

(** Go's [int] on a 64-bit platform. *)
Definition is_int (z : Z) : Prop := - 2 ^ 63 <= z < 2 ^ 63.

(** What the program observes of a [time.Time]. *)
Record Time : Type := mkTime {
  Year : Z;
  UnixNano : Z
}.

(** Dynamic values of a [map[string]interface{}]; the program tells
    strings from everything else. *)
Inductive value : Type :=
  | VNil
  | VBool (b : bool)
  | VInt (z : Z)
  | VString (s : string).

(** ** gnark: field, witnesses and the constraint API *)

Module ecc.
(** [ecc.BN254.ScalarField()] *)
Definition BN254_ScalarField : Z :=
  21888242871839275222246405745257275088548364400416034343698204186575808495617.
End ecc.

(** Field elements, by their canonical representative in [0, q). *)
Definition Fr : Type := Z.
Definition toFr (z : Z) : Fr := z mod ecc.BN254_ScalarField.

Module witness.
(** A witness vector: the public values, then the secret ones. *)
Record Witness : Type := mk {
  public : list Fr;
  secret : list Fr
}.

(** [w.Public()]: the public part alone. *)
Definition Public (w : Witness) : result Witness :=
  Ok {| public := public w; secret := [] |}.
End witness.

Module constraint.
(** A compiled constraint system, by what its solver says of a witness. *)
Definition ConstraintSystem : Type := witness.Witness -> result unit.
End constraint.

Module api.
(** [frontend.API] as a solver runs it: on the values of the wires, each a
    canonical representative. *)
Definition Sub (i1 i2 : Fr) : Fr := toFr (i1 - i2).

Definition IsZero (i1 : Fr) : Fr := if i1 =? 0 then 1 else 0.

(** [And] and [Select] on boolean wires. *)
Definition And (a b : Fr) : Fr := toFr (a * b).
Definition Select (b i1 i2 : Fr) : Fr := if b =? 0 then i2 else i1.

(** Bit length of the scalar field of BN254. *)
Definition FieldBitLen : nat := 254.

(** [bits.ToBinary]: the bits of the representative, least significant
    first. *)
Definition ToBinary (i1 : Fr) (nbBits : nat) : list Fr :=
  map (fun i => Z.b2z (Z.testbit i1 (Z.of_nat i))) (seq 0 nbBits).

(** One round of the loop of [Cmp], on the bits of one position. *)
Definition Cmp_round (res : Fr) (bits : Fr * Fr) : Fr :=
  let '(bi1, bi2) := bits in
  let iszeroi1 := IsZero bi1 in
  let iszeroi2 := IsZero bi2 in
  let i1i2 := And bi1 iszeroi2 in
  let i2i1 := And bi2 iszeroi1 in
  let n := Select i2i1 (toFr (-1)) (toFr 0) in
  let m := Select i1i2 (toFr 1) n in
  Select (IsZero res) m res.

(** The loop of [Cmp]: from the most significant bit down, the first
    difference decides. *)
Definition Cmp_rounds (nbBits : nat) (res : Fr) (i1 i2 : Fr) : Fr :=
  let bi1 := ToBinary i1 nbBits in
  let bi2 := ToBinary i2 nbBits in
  fold_left Cmp_round (rev (zip bi1 bi2)) res.

(** [Cmp] returns 1 if [i1 > i2], 0 if [i1 = i2], -1 if [i1 < i2]. *)
Definition Cmp (i1 i2 : Fr) : Fr :=
  Cmp_rounds FieldBitLen 0 i1 i2.

Definition AssertIsEqual (i1 i2 : Fr) : result unit :=
  if i1 =? i2 then Ok () else Err ErrUnsatisfied.
End api.

(** ** The circuit *)

(** [AgeCheckCircuit]: [BirthYear] is the secret input, [CurrentYear] the
    public one.  [V] is what a variable holds: a wire value when the circuit
    is solved, a Go value or nil in an assignment. *)
Record AgeCheckCircuit {V : Type} : Type := mkCircuit {
  BirthYear : V;
  CurrentYear : V
}.
Arguments AgeCheckCircuit V : clear implicits.
Arguments mkCircuit {V} _ _.

Definition Define (circuit : AgeCheckCircuit Fr) : result unit :=
  (* Calculate age *)
  let age := api.Sub (CurrentYear circuit) (BirthYear circuit) in
  (* Prove that age > 18 without revealing exact age *)
  let isOver18 := api.Cmp age (toFr 18) in
  _ ← api.AssertIsEqual isOver18 (toFr 1);
  Ok ().

Module frontend.
(** A [frontend.Variable] of an assignment: nil, or a Go [int]. *)
Definition Variable_ : Type := option Z.

(** [NewWitness(assignment, field)]: every variable must be assigned;
    the public ones come first. *)
Definition NewWitness (assignment : AgeCheckCircuit Variable_)
  : result witness.Witness :=
  match CurrentYear assignment, BirthYear assignment with
  | Some currentYear, Some birthYear =>
    Ok {| witness.public := [toFr currentYear];
          witness.secret := [toFr birthYear] |}
  | _, _ => Err ErrMissingAssignment
  end.

(** The solver of a compiled circuit runs its [Define] on the values of
    the witness.  It is the library's on the witnesses that [NewWitness]
    builds for the circuit, one public value and one secret value; other
    splits of a witness, which the library takes by their total length, are
    outside this model and refused. *)
Definition solver (define : AgeCheckCircuit Fr -> result unit)
  : constraint.ConstraintSystem :=
  fun w =>
    match witness.public w, witness.secret w with
    | [currentYear], [birthYear] =>
      define {| BirthYear := birthYear; CurrentYear := currentYear |}
    | _, _ => Err ErrWitnessSize
    end.

(** [Compile(field, r1cs.NewBuilder, &circuit)] *)
Definition Compile (define : AgeCheckCircuit Fr -> result unit)
  : result constraint.ConstraintSystem :=
  Ok (solver define).
End frontend.

(** ** The proving backend *)

Module groth16.

(** Keys and proofs are opaque to the program.  [Setup] and [Prove] draw
    randomness, passed explicitly.  The laws are those of an honest
    Groth16 run with keys of one setup: the prover solves the constraint
    system first and fails when it is not satisfied, succeeds when it is,
    and a proof it returns verifies against the public part of its
    witness.  [Verify] is total here: the panics of the library on a proof
    that holds no value, or on a key of another kind, are outside this
    model. *)
Class Backend : Type := {
  ProvingKey : Type;
  VerifyingKey : Type;
  Proof : Type;
  Rand : Type;
  Setup : constraint.ConstraintSystem -> Rand
          -> result (ProvingKey * VerifyingKey);
  Prove : constraint.ConstraintSystem -> ProvingKey -> witness.Witness
          -> Rand -> result Proof;
  Verify : Proof -> VerifyingKey -> witness.Witness -> result unit;
  Prove_solves : forall r1cs rs pk vk w rp proof,
    Setup r1cs rs = Ok (pk, vk) ->
    Prove r1cs pk w rp = Ok proof -> r1cs w = Ok ();
  Prove_complete : forall r1cs rs pk vk w rp,
    Setup r1cs rs = Ok (pk, vk) ->
    r1cs w = Ok () -> is_Ok (Prove r1cs pk w rp);
  Verify_complete : forall r1cs rs pk vk w rp proof publicWitness,
    Setup r1cs rs = Ok (pk, vk) ->
    Prove r1cs pk w rp = Ok proof ->
    witness.Public w = Ok publicWitness ->
    Verify proof vk publicWitness = Ok ()
}.

End groth16.

(** ** The program *)

Section Program.

Context {B : groth16.Backend}.

(** [Credential]: a simplified Verifiable Credential.  [Proof] is a
    pointer: [None] is nil. *)
Record Credential : Type := mkCredential {
  ID : string;
  Type_ : list string;
  Issuer : string;
  IssuanceDate : Time;
  Subject : gmap string value;
  Proof : option groth16.Proof
}.

(** [Wallet] stores user credentials. *)
Record Wallet : Type := mkWallet {
  Credentials : list Credential
}.

Definition NewWallet : result Wallet :=
  Ok {| Credentials := [] |}.

(** What [IssueCredential] takes from its environment: the three readings
    of [time.Now()], in program order, and the randomness of the prover. *)
Record Env : Type := mkEnv {
  now_currentYear : Time;
  now_ID : Time;
  now_IssuanceDate : Time;
  rand_Prove : groth16.Rand
}.

Definition InitCircuit (rs : groth16.Rand)
  : result (groth16.ProvingKey * groth16.VerifyingKey
            * constraint.ConstraintSystem) :=
  r1cs ← frontend.Compile Define;
  '(pk, vk) ← groth16.Setup r1cs rs;
  Ok (pk, vk, r1cs).

Definition generateZKProof (pk : groth16.ProvingKey)
    (r1cs : constraint.ConstraintSystem) (birthYear currentYear : Z)
    (rp : groth16.Rand)
  : result (groth16.Proof * AgeCheckCircuit frontend.Variable_) :=
  let assignment :=
    {| BirthYear := Some birthYear;      (* secret value (kept private) *)
       CurrentYear := Some currentYear |} (* public value *) in
  witness ← frontend.NewWitness assignment;
  (* Generate the proof *)
  proof ← groth16.Prove r1cs pk witness rp;
  Ok (proof, assignment).

Definition verifyZKProof (circuit : AgeCheckCircuit frontend.Variable_)
    (proof : option groth16.Proof) (vk : groth16.VerifyingKey)
  : go (option error) :=
  match frontend.NewWitness circuit with
  | Err err => Return (Some err)
  | Ok witness =>
    (* Verify the proof *)
    match witness.Public witness with
    | Err err => Return (Some err)
    | Ok publicWitness =>
      match proof with
      | None => Panic  (* [*proof] of a nil pointer *)
      | Some proof =>
        match groth16.Verify proof vk publicWitness with
        | Err err => Return (Some err)
        | Ok _ => Return None
        end
      end
    end
  end.

(** Creates a new VC.  The wallet behind the receiver is passed in and
    out.  Where Go returns the zero [Credential] and a nil circuit next to
    an error, the result is the error alone. *)
Definition IssueCredential (w : Wallet) (pk : groth16.ProvingKey)
    (vk : groth16.VerifyingKey) (r1cs : constraint.ConstraintSystem)
    (subject : gmap string value) (env : Env)
  : Wallet * result (Credential * AgeCheckCircuit frontend.Variable_) :=
  (* Extract birth year from subject *)
  match subject !! "birthDate"%string with
  | Some (VString birthYearFloat) =>
    (* Convert "YYYY-MM-DD" to an integer year *)
    match fmt.Sscanf birthYearFloat with
    | Err err => (w, Err (Errorf "failed to parse birth year: " err))
    | Ok birthYear =>
      (* Use the current year dynamically *)
      let currentYear := Year (now_currentYear env) in
      (* Run the ZKP proof generation *)
      match generateZKProof pk r1cs birthYear currentYear (rand_Prove env) with
      | Err err => (w, Err (Errorf "failed to generate ZKP proof: " err))
      | Ok (zkpProof, circuit) =>
        let cred :=
          {| ID := fmt.Sprintf_urn_uuid (UnixNano (now_ID env));
             Type_ := ["VerifiableCredential"; "eIDASIdentityCredential"]%string;
             Issuer := "did:example:issuer123";
             IssuanceDate := now_IssuanceDate env;
             Subject := subject;
             Proof := Some zkpProof |} in
        ({| Credentials := Credentials w ++ [cred] |}, Ok (cred, circuit))
      end
    end
  | _ => (w, Err (errorString "birthDate field is missing or not a string"))
  end.

Definition VerifyCredential (circuit : AgeCheckCircuit frontend.Variable_)
    (cred : Credential) (vk : groth16.VerifyingKey)
  : go (bool * option error) :=
  match verifyZKProof circuit (Proof cred) vk with
  | Panic => Panic
  | Return (Some err) => Return (false, Some err)
  | Return None => Return (true, None)
  end.

End Program.

Arguments Credential B : clear implicits.
Arguments Wallet B : clear implicits.
Arguments Env B : clear implicits.

(** ** The command: [issueCredential], [verifyCredential] and [main] *)

Section Command.

Context {B : groth16.Backend}.

(** What the program itself writes to standard output through [fmt], call
    by call: the format string as the source has it and its operand,
    unformatted.  What the libraries log there is no part of it. *)
Inductive operand : Type :=
  | OError (err : error)
  | OCred (cred : Credential B).

Inductive line : Type :=
  | Printf (format : string) (a : operand)
  | Println (text : string).

(** The lines that [InitCircuit], [generateZKProof] and [verifyZKProof]
    print on their error paths. *)
Definition InitCircuit_stdout (rs : groth16.Rand) : list line :=
  match frontend.Compile Define with
  | Err err => [Printf "Failed to compile circuit: %v\n" (OError err)]
  | Ok r1cs =>
    match groth16.Setup r1cs rs with
    | Err err => [Printf "Failed to setup: %v\n" (OError err)]
    | Ok _ => []
    end
  end.

Definition generateZKProof_stdout (pk : groth16.ProvingKey)
    (r1cs : constraint.ConstraintSystem) (birthYear currentYear : Z)
    (rp : groth16.Rand) : list line :=
  let assignment :=
    {| BirthYear := Some birthYear; CurrentYear := Some currentYear |} in
  match frontend.NewWitness assignment with
  | Err err => [Printf "Failed to create witness: %v\n" (OError err)]
  | Ok witness =>
    match groth16.Prove r1cs pk witness rp with
    | Err err => [Printf "Failed to generate proof: %v\n" (OError err)]
    | Ok _ => []
    end
  end.

Definition verifyZKProof_stdout (circuit : AgeCheckCircuit frontend.Variable_)
    (proof : option groth16.Proof) (vk : groth16.VerifyingKey) : list line :=
  match frontend.NewWitness circuit with
  | Err err => [Printf "Failed to create witness: %v\n" (OError err)]
  | Ok witness =>
    match witness.Public witness with
    | Err err => [Printf "Failed to get public witness: %v\n" (OError err)]
    | Ok publicWitness =>
      match proof with
      | None => []
      | Some proof =>
        match groth16.Verify proof vk publicWitness with
        | Err err => [Printf "Proof verification failed: %v\n" (OError err)]
        | Ok _ => []
        end
      end
    end
  end.

(** [IssueCredential] prints through [generateZKProof] only. *)
Definition IssueCredential_stdout (pk : groth16.ProvingKey)
    (r1cs : constraint.ConstraintSystem) (subject : gmap string value)
    (env : Env B) : list line :=
  match subject !! "birthDate"%string with
  | Some (VString birthYearFloat) =>
    match fmt.Sscanf birthYearFloat with
    | Err _ => []
    | Ok birthYear =>
      generateZKProof_stdout pk r1cs birthYear (Year (now_currentYear env))
        (rand_Prove env)
    end
  | _ => []
  end.

(** [issueCredential]: the wallet after the call, the lines printed, and
    the two pointers returned, both nil or both set. *)
Definition issueCredential (pk : groth16.ProvingKey)
    (vk : groth16.VerifyingKey) (r1cs : constraint.ConstraintSystem)
    (w : Wallet B) (env : Env B)
  : Wallet B * list line
    * option (Credential B * AgeCheckCircuit frontend.Variable_) :=
  let subject : gmap string value :=
    (<["id" := VString "did:example:user123"]>
    (<["givenName" := VString "Adrien"]>
    (<["familyName" := VString "Smith"]>
    (<["birthDate" := VString "1984-01-01"]>
    (<["nationality" := VString "FR"]> ∅)))))%string in
  let stdout := IssueCredential_stdout pk r1cs subject env in
  match IssueCredential w pk vk r1cs subject env with
  | (w', Err err) =>
    (w', stdout ++ [Printf "Failed to issue credential: %v\n" (OError err)],
     None)
  | (w', Ok (cred, circuit)) =>
    (w', stdout ++ [Printf "Cred: %v\n" (OCred cred)], Some (cred, circuit))
  end.

(** [verifyCredential], on the pointers that [issueCredential] returns.
    With a nil credential [VerifyCredential] panics on [cred.Proof] before
    anything is printed. *)
Definition verifyCredential
    (p : option (Credential B * AgeCheckCircuit frontend.Variable_))
    (vk : groth16.VerifyingKey) : list line * go unit :=
  match p with
  | None => ([], Panic)
  | Some (c, circuit) =>
    let stdout := verifyZKProof_stdout circuit (Proof c) vk in
    match VerifyCredential circuit c vk with
    | Panic => (stdout, Panic)
    | Return (valid, Some err) =>
      (stdout ++ [Printf "Verification error: %v\n" (OError err)], Return ())
    | Return (valid, None) =>
      if valid
      then (stdout ++ [Println "Credential is valid."], Return ())
      else (stdout ++ [Println "Credential is not valid."], Return ())
    end
  end.

(** How the process ends: [main] returns, [log.Fatal] exits with status 1,
    or a panic crashes it. *)
Inductive exit : Type :=
  | Exit0
  | Fatal (err : error)
  | Crashed.

(** [main], from the randomness of the setup and the environment of the
    issuance: the lines printed and the way the process ends. *)
Definition main (rs : groth16.Rand) (env : Env B) : list line * exit :=
  match NewWallet with
  | Err err => ([], Fatal err)
  | Ok wallet =>
    match InitCircuit rs with
    | Err err => (InitCircuit_stdout rs, Fatal err)
    | Ok (pk, vk, r1cs) =>
      let '(_, stdout1, p) := issueCredential pk vk r1cs wallet env in
      let '(stdout2, r) := verifyCredential p vk in
      (InitCircuit_stdout rs ++ stdout1 ++ stdout2,
       match r with
       | Return _ => Exit0
       | Panic => Crashed
       end)
    end
  end.

End Command.

Arguments operand B : clear implicits.
Arguments line B : clear implicits.

(** A result with the [Subject] of its credential blanked. *)
Definition erase_Subject {B : groth16.Backend}
    (r : result (Credential B * AgeCheckCircuit frontend.Variable_))
  : result (Credential B * AgeCheckCircuit frontend.Variable_) :=
  match r with
  | Ok (cred, circuit) =>
    Ok ({| ID := ID cred; Type_ := Type_ cred; Issuer := Issuer cred;
           IssuanceDate := IssuanceDate cred; Subject := ∅;
           Proof := Proof cred |}, circuit)
  | Err err => Err err
  end.

(** ** Vocabulary of the properties *)

(** The constraint system that [InitCircuit] compiles. *)
Definition AgeCheck_r1cs : constraint.ConstraintSystem :=
  frontend.solver Define.

(** The outcome of comparing two representatives. *)
Definition cmp3 (i1 i2 : Z) : Fr :=
  if i2 <? i1 then toFr 1 else if i1 =? i2 then toFr 0 else toFr (-1).

(** An issuance that returns a credential whose proof verifies. *)
Definition issued_and_verifies {B : groth16.Backend}
    (out : Wallet B * result (Credential B * AgeCheckCircuit frontend.Variable_))
    (vk : groth16.VerifyingKey) : Prop :=
  exists cred circuit,
    snd out = Ok (cred, circuit)
    /\ VerifyCredential circuit cred vk = Return (true, None).

(** The value of a run of decimal digits, in arbitrary precision. *)
Definition digitsValue (n : Z) (ds : list rune) : Z :=
  fold_left (fun acc c => acc * 10 + (c - 48)) ds n.

Definition all (ok : rune -> bool) (rs : list rune) : Prop :=
  Forall (fun r => ok r = true) rs.

(** The next rune, if any, fails [ok]. *)
Definition stops (ok : rune -> bool) (rs : list rune) : Prop :=
  match rs with
  | [] => True
  | r :: _ => ok r = false
  end.

(** A token as [scanInt] hands it to [ParseInt]: an optional sign and at
    least one digit. *)
Definition signed (sg : list rune) (v : Z) : Z :=
  match sg with
  | [45] => - v
  | _ => v
  end.

Definition is_sign (sg : list rune) : Prop :=
  sg = [] \/ sg = [43] \/ sg = [45].

(** White space that [SkipSpace] steps over: a space other than newline. *)
Definition blank (r : rune) : bool := fmt.isSpace r && negb (r =? 10).

(** The input that [scanInt] accepts: blanks, an optional sign, a maximal
    run of digits, whose value [v] fits a Go [int]. *)
Definition leading_int (input : list rune) (v : Z) (rest : list rune) : Prop :=
  exists sp sg ds,
    input = sp ++ sg ++ ds ++ rest
    /\ all blank sp /\ is_sign sg
    /\ ds <> [] /\ all strconv.isDigit ds /\ stops strconv.isDigit rest
    /\ v = signed sg (digitsValue 0 ds) /\ is_int v.

(** The date format of the specification: [YYYY-MM-DD], ten characters,
    digits around two hyphens. *)
Definition is_YYYY_MM_DD (s : string) : bool :=
  match utf8.bytes s with
  | [y1; y2; y3; y4; h1; m1; m2; h2; d1; d2] =>
    forallb strconv.isDigit [y1; y2; y3; y4; m1; m2; d1; d2]
    && (h1 =? 45) && (h2 =? 45)
  | _ => false
  end.

(** A map that holds the value [v] under some key. *)
Definition holds_value (m : gmap string value) (v : value) : Prop :=
  exists k, m !! k = Some v.

(** Lines other than the verdict "not valid". *)
Definition not_the_invalid_verdict {B : groth16.Backend} (l : line B) : Prop :=
  l <> Println "Credential is not valid.".

(** ** An ideal backend *)

Module ideal.

(** An ideal proof records the setup it was made under and the public
    statement it is bound to. *)
Record proof : Type := mkProof {
  setup_id : nat;
  statement : list Fr;
  nonce : nat
}.

Definition Setup (r1cs : constraint.ConstraintSystem) (rs : nat)
  : result (nat * nat) := Ok (rs, rs).

Definition Prove (r1cs : constraint.ConstraintSystem) (pk : nat)
    (w : witness.Witness) (rp : nat) : result proof :=
  match r1cs w with
  | Ok _ => Ok {| setup_id := pk; statement := witness.public w; nonce := rp |}
  | Err e => Err e
  end.

Definition Verify (p : proof) (vk : nat) (publicWitness : witness.Witness)
  : result unit :=
  if decide (setup_id p = vk /\ statement p = witness.public publicWitness)
  then Ok () else Err (ErrBackend 0).

Lemma Prove_solves r1cs rs pk vk w rp p :
  Setup r1cs rs = Ok (pk, vk) -> Prove r1cs pk w rp = Ok p -> r1cs w = Ok ().
Proof.
  intros _. unfold Prove. destruct (r1cs w) as [[]|e]; [reflexivity|discriminate].
Qed.

Lemma Prove_complete r1cs rs pk vk w rp :
  Setup r1cs rs = Ok (pk, vk) -> r1cs w = Ok () -> is_Ok (Prove r1cs pk w rp).
Proof.
  intros _ Hw. unfold Prove. rewrite Hw. eexists; reflexivity.
Qed.

Lemma Verify_complete r1cs rs pk vk w rp p publicWitness :
  Setup r1cs rs = Ok (pk, vk) ->
  Prove r1cs pk w rp = Ok p ->
  witness.Public w = Ok publicWitness ->
  Verify p vk publicWitness = Ok ().
Proof.
  unfold Setup, Prove, witness.Public, Verify.
  intros [= <- <-] Hp [= <-].
  destruct (r1cs w); [|discriminate]. injection Hp as <-. simpl.
  rewrite decide_True; [reflexivity|split; reflexivity].
Qed.

Definition backend : groth16.Backend :=
  {| groth16.ProvingKey := nat;
     groth16.VerifyingKey := nat;
     groth16.Proof := proof;
     groth16.Rand := nat;
     groth16.Setup := Setup;
     groth16.Prove := Prove;
     groth16.Verify := Verify;
     groth16.Prove_solves := Prove_solves;
     groth16.Prove_complete := Prove_complete;
     groth16.Verify_complete := Verify_complete |}.

End ideal.

(** ** Concrete inputs *)

Module sample.

(** The subject of [issueCredential] in [main.go]. *)
Definition subject : gmap string value :=
  <["id" := VString "did:example:user123"]>
  (<["givenName" := VString "Adrien"]>
  (<["familyName" := VString "Smith"]>
  (<["birthDate" := VString "1984-01-01"]>
  (<["nationality" := VString "FR"]> ∅))))%string.

Definition born (birthDate : value) : gmap string value :=
  <["birthDate"%string := birthDate]> subject.

Definition t2024 : Time := {| Year := 2024; UnixNano := 1704067200000000000 |}.

Definition env : Env ideal.backend :=
  @mkEnv ideal.backend t2024 t2024 t2024 7%nat.

Definition wallet : Wallet ideal.backend := @mkWallet ideal.backend [].

Definition r1cs : constraint.ConstraintSystem := AgeCheck_r1cs.

(** [IssueCredential] on the keys of the setup run number 1. *)
Definition issue (subject : gmap string value) :=
  IssueCredential (B := ideal.backend) wallet 1%nat 1%nat r1cs subject env.

(** The credential that [issue subject] returns, and one that carries the
    same proof in another envelope. *)
Definition cred_of (subject : gmap string value) : Credential ideal.backend :=
  @mkCredential ideal.backend
    "urn:uuid:1704067200000000000"
    ["VerifiableCredential"; "eIDASIdentityCredential"]%string
    "did:example:issuer123" t2024 subject
    (Some {| ideal.setup_id := 1; ideal.statement := [2024];
             ideal.nonce := 7 |}).

Definition cred : Credential ideal.backend := cred_of subject.

Definition forged : Credential ideal.backend :=
  @mkCredential ideal.backend
    "urn:uuid:0" ["AgeEligibilityCredential"]%string "did:example:nobody"
    {| Year := 1970; UnixNano := 0 |} ∅ (Proof cred).

End sample.

(** ** A backend whose setup fails, and further inputs *)

Module failing.

Definition Setup (r1cs : constraint.ConstraintSystem) (rs : nat)
  : result (nat * nat) := Err (ErrBackend 1).

Definition Prove (r1cs : constraint.ConstraintSystem) (pk : nat)
    (w : witness.Witness) (rp : nat) : result unit := Err (ErrBackend 2).

Definition Verify (p : unit) (vk : nat) (publicWitness : witness.Witness)
  : result unit := Err (ErrBackend 3).

Definition backend : groth16.Backend.
Proof.
  refine {| groth16.ProvingKey := nat;
            groth16.VerifyingKey := nat;
            groth16.Proof := unit;
            groth16.Rand := nat;
            groth16.Setup := Setup;
            groth16.Prove := Prove;
            groth16.Verify := Verify |}; discriminate.
Defined.

End failing.

Module run.

Definition t2000 : Time := {| Year := 2000; UnixNano := 946684800000000000 |}.

(** The environment of [sample], with the clock in 2000. *)
Definition env2000 : Env ideal.backend :=
  @mkEnv ideal.backend t2000 t2000 t2000 7%nat.

(** The subject of [main.go] with its [birthDate] alone. *)
Definition anonymous : gmap string value :=
  <["birthDate"%string := VString "1984-01-01"]> ∅.

(** A credential whose [Proof] is nil, its other fields empty. *)
Definition unproved : Credential ideal.backend :=
  @mkCredential ideal.backend "" [] "" sample.t2024 ∅ None.

End run.

(** * Properties *)

(** ** Concrete runs *)

Example Sscanf_date : fmt.Sscanf "1984-01-01" = Ok 1984.
Proof. reflexivity. Qed.

Example Sscanf_not_a_date : fmt.Sscanf "not-a-date" = Err ErrExpectedInteger.
Proof. reflexivity. Qed.

Example Sscanf_signed_prefix : fmt.Sscanf "  -12x" = Ok (-12).
Proof. reflexivity. Qed.

Example Sscanf_empty : fmt.Sscanf "" = Err ErrEOF.
Proof. reflexivity. Qed.

Example Sscanf_max : fmt.Sscanf "9223372036854775807" = Ok (2 ^ 63 - 1).
Proof. reflexivity. Qed.

Example Sscanf_overflow : fmt.Sscanf "9223372036854775808" = Err ErrRange.
Proof. reflexivity. Qed.

Example Sscanf_min : fmt.Sscanf "-9223372036854775808" = Ok (- 2 ^ 63).
Proof. reflexivity. Qed.

Example runes_multibyte :
  utf8.runes (String (ascii_of_nat 226) (String (ascii_of_nat 130)
               (String (ascii_of_nat 172) (String (ascii_of_nat 128) "a"))))
  = [0x20AC; utf8.RuneError; 97].
Proof. reflexivity. Qed.

(** A no-break space (U+00A0, bytes C2 A0) is white space; a line feed is
    not skipped. *)
Example Sscanf_nbsp :
  fmt.Sscanf (String (ascii_of_nat 194) (String (ascii_of_nat 160) "12")) = Ok 12.
Proof. reflexivity. Qed.

Example Sscanf_newline :
  fmt.Sscanf (String (ascii_of_nat 10) "12") = Err ErrUnexpectedNewline.
Proof. reflexivity. Qed.

Example Sprintf_urn_uuid_ex :
  fmt.Sprintf_urn_uuid 1704067200000000000 = "urn:uuid:1704067200000000000"%string.
Proof. reflexivity. Qed.

Example InitCircuit_ideal :
  InitCircuit (B := ideal.backend) 1%nat = Ok (1%nat, 1%nat, sample.r1cs).
Proof. reflexivity. Qed.

Example scenario1 :
  match sample.issue sample.subject with
  | (_, Ok (cred, circuit)) =>
    VerifyCredential circuit cred 1%nat = Return (true, None)
  | _ => False
  end.
Proof. vm_compute. reflexivity. Qed.

Example scenario1_cred :
  snd (sample.issue sample.subject)
  = Ok (sample.cred, {| BirthYear := Some 1984; CurrentYear := Some 2024 |}).
Proof. vm_compute. reflexivity. Qed.

Example scenario2 :
  snd (sample.issue (sample.born (VString "2010-01-01")))
  = Err (Errorf "failed to generate ZKP proof: " ErrUnsatisfied).
Proof. vm_compute. reflexivity. Qed.

Example scenario2_future :
  sample.issue (sample.born (VString "2030-01-01"))
  = ({| Credentials := [sample.cred_of (sample.born (VString "2030-01-01"))] |},
     Ok (sample.cred_of (sample.born (VString "2030-01-01")),
         {| BirthYear := Some 2030; CurrentYear := Some 2024 |})).
Proof. vm_compute. reflexivity. Qed.

Example scenario3 :
  snd (sample.issue (sample.born (VString "not-a-date")))
  = Err (Errorf "failed to parse birth year: " ErrExpectedInteger).
Proof. vm_compute. reflexivity. Qed.


(** ** The field and the circuit *)

Lemma ScalarField_large : 2 ^ 65 < ecc.BN254_ScalarField.
Proof. reflexivity. Qed.

Lemma toFr_small z : 0 <= z < ecc.BN254_ScalarField -> toFr z = z.
Proof. intros H. unfold toFr. apply Z.mod_small, H. Qed.

Lemma toFr_wrap z :
  - ecc.BN254_ScalarField <= z < 0 -> toFr z = z + ecc.BN254_ScalarField.
Proof.
  intros H. unfold toFr. symmetry.
  apply (Z.mod_unique_pos _ _ (-1)); lia.
Qed.

Lemma toFr_range z : 0 <= toFr z < ecc.BN254_ScalarField.
Proof. unfold toFr. apply Z.mod_pos_bound. reflexivity. Qed.

Lemma Sub_toFr a b : api.Sub (toFr a) (toFr b) = toFr (a - b).
Proof. unfold api.Sub, toFr. symmetry. apply Zminus_mod. Qed.

Lemma Cmp_rounds_S n res i1 i2 :
  api.Cmp_rounds (S n) res i1 i2
  = api.Cmp_rounds n
      (api.Cmp_round res (Z.b2z (Z.testbit i1 (Z.of_nat n)),
                          Z.b2z (Z.testbit i2 (Z.of_nat n)))) i1 i2.
Proof.
  unfold api.Cmp_rounds, api.ToBinary.
  rewrite seq_S, !map_app. cbn [map Nat.add].
  rewrite zip_with_app by (rewrite !length_map; reflexivity).
  cbn [zip_with]. rewrite rev_app_distr. reflexivity.
Qed.

Lemma Cmp_round_decided res bits : res <> 0 -> api.Cmp_round res bits = res.
Proof.
  intros Hres. destruct bits as [b1 b2]. unfold api.Cmp_round.
  replace (api.IsZero res) with 0; [reflexivity|].
  unfold api.IsZero. destruct (Z.eqb_spec res 0); [contradiction|reflexivity].
Qed.

Lemma Cmp_rounds_decided n res i1 i2 :
  res <> 0 -> api.Cmp_rounds n res i1 i2 = res.
Proof.
  intros Hres. induction n as [|n IH]; [reflexivity|].
  rewrite Cmp_rounds_S, Cmp_round_decided by exact Hres. exact IH.
Qed.

Lemma Cmp_round_first b1 b2 :
  api.Cmp_round 0 (Z.b2z b1, Z.b2z b2)
  = match b1, b2 with
    | true, false => toFr 1
    | false, true => toFr (-1)
    | _, _ => toFr 0
    end.
Proof. destruct b1, b2; reflexivity. Qed.

Lemma mod_pow2_S x n :
  x mod 2 ^ Z.of_nat (S n)
  = x mod 2 ^ Z.of_nat n + 2 ^ Z.of_nat n * Z.b2z (Z.testbit x (Z.of_nat n)).
Proof.
  rewrite Nat2Z.inj_succ, Z.pow_succ_r by lia.
  rewrite (Z.mul_comm 2), Z.rem_mul_r by lia.
  rewrite Z.testbit_spec' by lia. reflexivity.
Qed.

Lemma Cmp_rounds_spec n i1 i2 :
  api.Cmp_rounds n 0 i1 i2
  = cmp3 (i1 mod 2 ^ Z.of_nat n) (i2 mod 2 ^ Z.of_nat n).
Proof.
  induction n as [|n IH].
  - cbn. rewrite !Z.mod_1_r. reflexivity.
  - rewrite Cmp_rounds_S, Cmp_round_first, !mod_pow2_S.
    pose proof (Z.mod_pos_bound i1 (2 ^ Z.of_nat n) ltac:(lia)) as H1.
    pose proof (Z.mod_pos_bound i2 (2 ^ Z.of_nat n) ltac:(lia)) as H2.
    assert (toFr 1 <> 0) as Hone by (vm_compute; discriminate).
    assert (toFr (-1) <> 0) as Hminus by (vm_compute; discriminate).
    destruct (Z.testbit i1 (Z.of_nat n)), (Z.testbit i2 (Z.of_nat n));
      cbn [Z.b2z]; rewrite ?Cmp_rounds_decided by assumption;
      change (toFr 0) with 0; rewrite ?IH; unfold cmp3;
      repeat match goal with
             | |- context [?a <? ?b] => destruct (Z.ltb_spec a b)
             | |- context [?a =? ?b] => destruct (Z.eqb_spec a b)
             end; try reflexivity; lia.
Qed.

Example FieldBitLen_BN254 :
  Z.of_nat api.FieldBitLen = Z.log2 ecc.BN254_ScalarField + 1.
Proof. reflexivity. Qed.

Lemma ScalarField_bits :
  Z.of_nat api.FieldBitLen = 254 /\ ecc.BN254_ScalarField < 2 ^ 254.
Proof. split; reflexivity. Qed.

(** [Cmp] orders field elements by their representatives. *)
Lemma Cmp_spec i1 i2 :
  0 <= i1 < ecc.BN254_ScalarField -> 0 <= i2 < ecc.BN254_ScalarField ->
  api.Cmp i1 i2 = cmp3 i1 i2.
Proof.
  intros H1 H2. destruct ScalarField_bits as [Hlen Hq].
  unfold api.Cmp.
  rewrite Cmp_rounds_spec, Hlen, !Z.mod_small by lia. reflexivity.
Qed.

(** The circuit is satisfied exactly when the age, as a field element, is
    above 18. *)
Lemma Define_iff birthYear currentYear :
  Define {| BirthYear := toFr birthYear; CurrentYear := toFr currentYear |} = Ok ()
  <-> 18 < toFr (currentYear - birthYear).
Proof.
  unfold Define. cbn [BirthYear CurrentYear]. rewrite Sub_toFr.
  pose proof (toFr_range (currentYear - birthYear)) as Hr.
  pose proof ScalarField_large as Hq.
  set (age := toFr (currentYear - birthYear)) in *.
  rewrite (toFr_small 18), (toFr_small 1) by lia.
  rewrite Cmp_spec by lia. unfold cmp3.
  rewrite (toFr_small 1), (toFr_small 0), (toFr_wrap (-1)) by lia.
  unfold api.AssertIsEqual.
  destruct (Z.ltb_spec 18 age) as [Hlt|Hge].
  - simpl. tauto.
  - destruct (Z.eqb_spec age 18) as [Heq|Hne].
    + simpl. split; [discriminate|lia].
    + destruct (Z.eqb_spec (-1 + ecc.BN254_ScalarField) 1) as [E|E]; [lia|].
      simpl. split; [discriminate|lia].
Qed.

(** On Go ints the field subtraction wraps when the birth year lies after
    the current year, and the wrapped age is far above 18. *)
Lemma age_above_18_iff birthYear currentYear :
  is_int birthYear -> is_int currentYear ->
  18 < toFr (currentYear - birthYear)
  <-> 18 < currentYear - birthYear \/ currentYear < birthYear.
Proof.
  unfold is_int. intros Hb Hc. pose proof ScalarField_large as Hq.
  assert (2 ^ 65 = 2 * 2 ^ 64) as E65 by reflexivity.
  assert (2 ^ 64 = 2 * 2 ^ 63) as E64 by reflexivity.
  destruct (Z.lt_ge_cases (currentYear - birthYear) 0) as [Hneg|Hpos].
  - rewrite toFr_wrap by lia. lia.
  - rewrite toFr_small by lia. lia.
Qed.

(** ** What [Sscanf] accepts *)


Lemma isDigit_range c : strconv.isDigit c = true <-> 48 <= c <= 57.
Proof. unfold strconv.isDigit. rewrite andb_true_iff, !Z.leb_le. tauto. Qed.

Lemma digitsValue_cons n c ds :
  digitsValue n (c :: ds) = digitsValue (n * 10 + (c - 48)) ds.
Proof. reflexivity. Qed.

Lemma digitsValue_ge n ds :
  0 <= n -> all strconv.isDigit ds -> n <= digitsValue n ds.
Proof.
  intros Hn Hds. revert n Hn.
  induction Hds as [|c ds Hc _ IH]; intros n Hn; [cbn; lia|].
  rewrite digitsValue_cons.
  apply isDigit_range in Hc. etransitivity; [|apply IH]; lia.
Qed.

Lemma maxUint64_cutoff :
  strconv.maxUint64 = 18446744073709551615
  /\ strconv.cutoff = 1844674407370955162.
Proof. split; reflexivity. Qed.

(** The loop of [ParseUint] returns the exact value when it fits 64 bits
    and a range error otherwise. *)
Lemma ParseUint_loop_cases n ds :
  0 <= n <= strconv.maxUint64 -> all strconv.isDigit ds ->
  (strconv.ParseUint_loop n ds = Ok (digitsValue n ds)
   /\ digitsValue n ds <= strconv.maxUint64)
  \/ (strconv.ParseUint_loop n ds = Err ErrRange
      /\ strconv.maxUint64 < digitsValue n ds).
Proof.
  intros Hn Hds. revert n Hn.
  induction Hds as [|c ds Hc Hds IH]; intros n Hn.
  - left. cbn. split; [reflexivity|lia].
  - rewrite digitsValue_cons. cbn [strconv.ParseUint_loop].
    rewrite Hc. cbn [negb]. destruct maxUint64_cutoff as [Emax Ecut].
    pose proof Hc as Hc'. apply isDigit_range in Hc'.
    destruct (Z.leb_spec strconv.cutoff n) as [Hcut|Hcut].
    + right. split; [reflexivity|].
      pose proof (digitsValue_ge (n * 10 + (c - 48)) ds ltac:(lia) Hds). lia.
    + destruct (Z.ltb_spec strconv.maxUint64 (n * 10 + (c - 48))) as [Hov|Hov].
      * right. split; [reflexivity|].
        pose proof (digitsValue_ge (n * 10 + (c - 48)) ds ltac:(lia) Hds). lia.
      * apply IH. lia.
Qed.

Lemma ParseInt_Ok sg ds i :
  is_sign sg -> ds <> [] -> all strconv.isDigit ds ->
  strconv.ParseInt (sg ++ ds) = Ok i
  <-> i = signed sg (digitsValue 0 ds) /\ is_int i.
Proof.
  intros Hsg Hne Hds. unfold is_int.
  destruct maxUint64_cutoff as [Emax Ecut].
  assert (2 ^ 63 = 9223372036854775808) as E63 by reflexivity.
  pose proof (digitsValue_ge 0 ds ltac:(lia) Hds) as Hge.
  pose proof (ParseUint_loop_cases 0 ds ltac:(lia) Hds) as Hloop.
  assert (Hpu : strconv.ParseUint ds = strconv.ParseUint_loop 0 ds)
    by (destruct ds; [congruence|reflexivity]).
  rewrite E63.
  assert (Hparse : strconv.ParseInt (sg ++ ds)
            = match strconv.ParseUint ds with
              | Err ErrRange => Err ErrRange
              | Err e => Err e
              | Ok un =>
                if negb (bool_decide (sg = [45])) && (2 ^ 63 <=? un)
                then Err ErrRange
                else if bool_decide (sg = [45]) && (2 ^ 63 <? un)
                then Err ErrRange
                else Ok (signed sg un)
              end).
  { destruct Hsg as [->|[->| ->]]; [|reflexivity|reflexivity].
    destruct ds as [|d ds']; [congruence|].
    inversion Hds as [|? ? Hd Hds']; subst. apply isDigit_range in Hd.
    unfold strconv.ParseInt. cbn [app].
    replace (d =? 43) with false by (symmetry; apply Z.eqb_neq; lia).
    replace (d =? 45) with false by (symmetry; apply Z.eqb_neq; lia).
    reflexivity. }
  rewrite Hparse, Hpu, E63.
  destruct Hloop as [[-> Hfit]|[-> Hbig]].
  - set (un := digitsValue 0 ds) in *.
    destruct Hsg as [->|[->| ->]]; cbn [bool_decide decide_rel signed];
      rewrite ?bool_decide_eq_true_2, ?bool_decide_eq_false_2 by congruence;
      cbn [negb andb].
    + destruct (Z.leb_spec 9223372036854775808 un);
        (split; [intros [=]|intros [-> ?]]); try lia; f_equal; lia.
    + destruct (Z.leb_spec 9223372036854775808 un);
        (split; [intros [=]|intros [-> ?]]); try lia; f_equal; lia.
    + destruct (Z.ltb_spec 9223372036854775808 un);
        (split; [intros [=]|intros [-> ?]]); try lia; f_equal; lia.
  - split; [discriminate|]. intros [-> ?].
    destruct Hsg as [->|[->| ->]]; cbn [signed] in *; lia.
Qed.

Lemma isSpace_range r :
  fmt.isSpace r = true -> 9 <= r <= 13 \/ r = 32 \/ 133 <= r.
Proof.
  unfold fmt.isSpace, fmt.space, fmt.isSpace_in.
  repeat match goal with
         | |- context [if ?a <? ?b then _ else _] => destruct (Z.ltb_spec a b)
         | |- context [if ?a <=? ?b then _ else _] => destruct (Z.leb_spec a b)
         end; intros; try discriminate; lia.
Qed.

Lemma isSpace_newline : fmt.isSpace 10 = true.
Proof. reflexivity. Qed.

Lemma sign_not_space r : fmt.sign r = true -> fmt.isSpace r = false.
Proof.
  unfold fmt.sign. rewrite orb_true_iff, !Z.eqb_eq. intros Hr.
  destruct (fmt.isSpace r) eqn:E; [|reflexivity].
  apply isSpace_range in E. lia.
Qed.

Lemma digit_not_space r : strconv.isDigit r = true -> fmt.isSpace r = false.
Proof.
  intros Hr%isDigit_range.
  destruct (fmt.isSpace r) eqn:E; [|reflexivity].
  apply isSpace_range in E. lia.
Qed.

Lemma digit_not_sign r : strconv.isDigit r = true -> fmt.sign r = false.
Proof.
  intros Hr%isDigit_range. unfold fmt.sign.
  apply orb_false_iff. rewrite !Z.eqb_neq. lia.
Qed.

Lemma SkipSpace_app sp input :
  all blank sp -> fmt.SkipSpace (sp ++ input) = fmt.SkipSpace input.
Proof.
  induction 1 as [|r sp Hr _ IH]; [reflexivity|].
  cbn [app fmt.SkipSpace]. unfold blank in Hr.
  apply andb_true_iff in Hr as [Hsp Hnl]. rewrite Hsp.
  destruct (r =? 10); [discriminate|]. exact IH.
Qed.

Lemma SkipSpace_stops input : stops fmt.isSpace input -> fmt.SkipSpace input = Ok input.
Proof.
  destruct input as [|r input]; [reflexivity|]. cbn. intros Hr. rewrite Hr.
  destruct (Z.eqb_spec r 10) as [->|_]; [discriminate|reflexivity].
Qed.

(** [SkipSpace] strips a run of blanks and stops in front of a rune that is
    not white space, or at the end of the input. *)
Lemma SkipSpace_Ok input out :
  fmt.SkipSpace input = Ok out ->
  exists sp, input = sp ++ out /\ all blank sp /\ stops fmt.isSpace out.
Proof.
  induction input as [|r input IH]; cbn.
  - intros [= <-]. exists []. repeat split. constructor.
  - destruct (Z.eqb_spec r 10) as [->|Hnl]; [discriminate|].
    destruct (fmt.isSpace r) eqn:Hsp.
    + intros (sp & -> & Hall & Hstop)%IH. exists (r :: sp).
      repeat split; [|exact Hstop]. constructor; [|exact Hall].
      unfold blank. rewrite Hsp. apply Z.eqb_neq in Hnl. rewrite Hnl. reflexivity.
    + intros [= <-]. exists []. repeat split; [constructor|exact Hsp].
Qed.

Lemma acceptAll_spec ok input :
  let '(tok, rest) := fmt.acceptAll ok input in
  input = tok ++ rest /\ all ok tok /\ stops ok rest.
Proof.
  induction input as [|r input IH]; cbn.
  - repeat split. constructor.
  - destruct (ok r) eqn:Hr.
    + destruct (fmt.acceptAll ok input) as [tok rest].
      destruct IH as (-> & Hall & Hstop).
      repeat split; [|exact Hstop]. constructor; assumption.
    + repeat split; [constructor|exact Hr].
Qed.

Lemma acceptAll_app ok tok rest :
  all ok tok -> stops ok rest -> fmt.acceptAll ok (tok ++ rest) = (tok, rest).
Proof.
  intros Hall Hstop. induction Hall as [|r tok Hr _ IH]; cbn.
  - destruct rest as [|r rest]; [reflexivity|]. cbn in *. rewrite Hstop.
    reflexivity.
  - rewrite Hr, IH. reflexivity.
Qed.

Lemma scanNumber_Ok digits input tok rest :
  fmt.scanNumber digits input = Ok (tok, rest)
  <-> tok <> [] /\ input = tok ++ rest /\ all digits tok /\ stops digits rest.
Proof.
  unfold fmt.scanNumber. split.
  - destruct input as [|r input]; cbn; [discriminate|].
    destruct (digits r) eqn:Hr; [|discriminate].
    pose proof (acceptAll_spec digits input) as Hacc.
    destruct (fmt.acceptAll digits input) as [tok' rest'].
    destruct Hacc as (-> & Hall & Hrest). intros [= <- <-].
    split_and!; [discriminate|reflexivity| |exact Hrest].
    constructor; assumption.
  - intros (Hne & -> & Hall & Hrest).
    destruct Hall as [|r tok Hr Hall]; [congruence|]. cbn.
    rewrite Hr, (acceptAll_app _ _ _ Hall Hrest). reflexivity.
Qed.

Arguments strconv.ParseInt : simpl never.

Lemma accept_sign input :
  exists sg input',
    input = sg ++ input' /\ is_sign sg
    /\ match fmt.accept fmt.sign input with
       | Some (r, rest) => ([r], rest)
       | None => ([], input)
       end = (sg, input')
    /\ (sg = [] -> stops fmt.sign input).
Proof.
  destruct input as [|r input]; cbn.
  - exists [], []. split_and!; [reflexivity|left; reflexivity|reflexivity|done].
  - destruct (fmt.sign r) eqn:Hr.
    + exists [r], input. split_and!; [reflexivity| |reflexivity|discriminate].
      unfold fmt.sign in Hr. apply orb_true_iff in Hr.
      rewrite !Z.eqb_eq in Hr. unfold is_sign. destruct Hr as [->| ->]; auto.
    + exists [], (r :: input).
      split_and!; [reflexivity|left; reflexivity|reflexivity|done].
Qed.

Lemma scanInt_Ok input v rest :
  fmt.scanInt input = Ok (v, rest) <-> leading_int input v rest.
Proof.
  split.
  - unfold fmt.scanInt.
    destruct (fmt.SkipSpace input) as [input1|e] eqn:Hskip; [|discriminate].
    apply SkipSpace_Ok in Hskip as (sp & -> & Hsp & Hstop).
    destruct (accept_sign input1) as (sg & input2 & -> & Hsg & Hacc & _).
    cbn [mbind result_bind]. rewrite Hacc.
    destruct (fmt.notEOF (sg ++ input2)); cbn; [|discriminate].
    destruct (fmt.scanNumber fmt.decimalDigits input2) as [[tok rest']|e]
      eqn:Hnum; cbn; [|discriminate].
    apply scanNumber_Ok in Hnum as (Hne & -> & Hds & Hrest).
    destruct (strconv.ParseInt (sg ++ tok)) as [i|e] eqn:Hparse; cbn;
      [|discriminate].
    apply ParseInt_Ok in Hparse as [Hi Hint]; auto.
    intros [= <- <-]. exists sp, sg, tok. split_and!; auto.
  - intros (sp & sg & ds & -> & Hsp & Hsg & Hne & Hds & Hrest & Hv & Hint).
    unfold fmt.scanInt. rewrite SkipSpace_app by exact Hsp.
    assert (Hparse : strconv.ParseInt (sg ++ ds) = Ok v)
      by (apply ParseInt_Ok; auto).
    assert (Hnum : fmt.scanNumber fmt.decimalDigits (ds ++ rest) = Ok (ds, rest))
      by (apply scanNumber_Ok; auto).
    destruct ds as [|d ds]; [congruence|].
    inversion Hds as [|? ? Hd Htl]; subst.
    destruct Hsg as [->|[->| ->]]; cbn [app].
    + rewrite SkipSpace_stops by (cbn; apply digit_not_space, Hd).
      cbn [mbind result_bind fmt.notEOF fmt.accept].
      rewrite (digit_not_sign _ Hd). cbn [app] in Hnum |- *.
      rewrite Hnum. cbn. cbn [app] in Hparse. rewrite Hparse. reflexivity.
    + rewrite SkipSpace_stops by reflexivity.
      cbn [mbind result_bind fmt.notEOF fmt.accept].
      change (fmt.sign 43) with true. cbn [app] in Hnum |- *.
      rewrite Hnum. cbn. cbn [app] in Hparse. rewrite Hparse. reflexivity.
    + rewrite SkipSpace_stops by reflexivity.
      cbn [mbind result_bind fmt.notEOF fmt.accept].
      change (fmt.sign 45) with true. cbn [app] in Hnum |- *.
      rewrite Hnum. cbn. cbn [app] in Hparse. rewrite Hparse. reflexivity.
Qed.

(** [Sscanf] accepts exactly the strings that begin with an integer. *)
Lemma Sscanf_Ok str v :
  fmt.Sscanf str = Ok v
  <-> exists rest, leading_int (fmt.readable fmt.hugeWid (utf8.runes str)) v rest.
Proof.
  unfold fmt.Sscanf. set (input := fmt.readable _ _). clearbody input. split.
  - destruct (fmt.SkipSpace input) as [input1|e] eqn:Hskip; cbn; [|discriminate].
    apply SkipSpace_Ok in Hskip as (sp & -> & Hsp & _).
    destruct (fmt.scanInt input1) as [[i rest]|e] eqn:Hscan; cbn; [|discriminate].
    apply scanInt_Ok in Hscan
      as (sp' & sg & ds & -> & Hsp' & Hsg & Hne & Hds & Hrest & Hv & Hint).
    intros [= <-]. exists rest, (sp ++ sp'), sg, ds.
    split_and!; auto.
    + rewrite <- app_assoc. reflexivity.
    + apply Forall_app. split; assumption.
  - intros (rest & sp & sg & ds & -> & Hsp & Hsg & Hne & Hds & Hrest & Hv & Hint).
    rewrite SkipSpace_app by exact Hsp.
    assert (Hstop : stops fmt.isSpace (sg ++ ds ++ rest)).
    { destruct ds as [|d ds]; [congruence|].
      inversion Hds as [|? ? Hd _]; subst.
      destruct Hsg as [->|[->| ->]]; cbn; [|reflexivity|reflexivity].
      apply digit_not_space, Hd. }
    rewrite (SkipSpace_stops _ Hstop). cbn.
    assert (Hscan : fmt.scanInt (sg ++ ds ++ rest) = Ok (v, rest)).
    { apply scanInt_Ok. exists [], sg, ds. split_and!; auto. constructor. }
    rewrite Hscan. reflexivity.
Qed.

Lemma Sscanf_is_int str v : fmt.Sscanf str = Ok v -> is_int v.
Proof.
  intros (rest & sp & sg & ds & _ & _ & _ & _ & _ & _ & _ & Hint)%Sscanf_Ok.
  exact Hint.
Qed.

Lemma DecodeRune_ascii s0 rest :
  0 <= s0 < 128 -> utf8.DecodeRune s0 rest = (s0, 1%nat).
Proof.
  intros H. unfold utf8.DecodeRune.
  replace (utf8.first s0) with (@None (nat * (Z * Z))).
  - destruct (Z.ltb_spec s0 128); [reflexivity|lia].
  - unfold utf8.first, utf8.inRange.
    repeat match goal with
           | |- context [?a <=? ?b] => destruct (Z.leb_spec a b)
           | |- context [?a =? ?b] => destruct (Z.eqb_spec a b)
           end; cbn; try reflexivity; lia.
Qed.

(** A date of the form [YYYY-MM-DD] is accepted, with its four leading
    digits as the year. *)
Lemma Sscanf_YYYY_MM_DD s :
  is_YYYY_MM_DD s = true ->
  exists y1 y2 y3 y4 rest,
    utf8.bytes s = y1 :: y2 :: y3 :: y4 :: rest
    /\ fmt.Sscanf s
       = Ok (1000 * (y1 - 48) + 100 * (y2 - 48) + 10 * (y3 - 48) + (y4 - 48)).
Proof.
  unfold is_YYYY_MM_DD.
  destruct (utf8.bytes s)
    as [|y1 [|y2 [|y3 [|y4 [|h1 [|m1 [|m2 [|h2 [|d1 [|d2 [|]]]]]]]]]]] eqn:Hbytes;
    try discriminate.
  cbn [forallb]. rewrite !andb_true_iff, !Z.eqb_eq.
  intros [[(Hy1 & Hy2 & Hy3 & Hy4 & Hm1 & Hm2 & Hd1 & Hd2 & _) ->] ->].
  exists y1, y2, y3, y4, [45; m1; m2; 45; d1; d2]. split; [reflexivity|].
  pose proof Hy1 as Ry1. pose proof Hy2 as Ry2. pose proof Hy3 as Ry3.
  pose proof Hy4 as Ry4. pose proof Hm1 as Rm1. pose proof Hm2 as Rm2.
  pose proof Hd1 as Rd1. pose proof Hd2 as Rd2.
  apply isDigit_range in Ry1, Ry2, Ry3, Ry4, Rm1, Rm2, Rd1, Rd2.
  apply Sscanf_Ok. exists [45; m1; m2; 45; d1; d2].
  unfold utf8.runes. rewrite Hbytes. cbn [utf8.decode].
  rewrite !DecodeRune_ascii by lia. cbn [utf8.decode Nat.sub].
  exists [], [], [y1; y2; y3; y4].
  split_and!.
  - reflexivity.
  - constructor.
  - left. reflexivity.
  - discriminate.
  - repeat constructor; assumption.
  - reflexivity.
  - cbn. lia.
  - unfold is_int. cbn. lia.
Qed.

(** ** Proof generation and verification under the keys of one setup *)

Section Protocol.

Context {B : groth16.Backend}.
Variables (rs : groth16.Rand) (pk : groth16.ProvingKey)
          (vk : groth16.VerifyingKey) (r1cs : constraint.ConstraintSystem).
Hypothesis Hinit : InitCircuit rs = Ok (pk, vk, r1cs).

Lemma InitCircuit_r1cs : r1cs = AgeCheck_r1cs.
Proof using Hinit.
  revert Hinit. unfold InitCircuit, frontend.Compile. cbn.
  fold AgeCheck_r1cs.
  destruct (groth16.Setup _ rs) as [[pk' vk']|e]; cbn; congruence.
Qed.

Lemma InitCircuit_Setup : groth16.Setup r1cs rs = Ok (pk, vk).
Proof using Hinit.
  rewrite InitCircuit_r1cs. revert Hinit.
  unfold InitCircuit, frontend.Compile. cbn. fold AgeCheck_r1cs.
  destruct (groth16.Setup _ rs) as [[pk' vk']|e]; cbn; congruence.
Qed.

Lemma solve_assignment birthYear currentYear :
  r1cs {| witness.public := [toFr currentYear];
          witness.secret := [toFr birthYear] |} = Ok ()
  <-> 18 < toFr (currentYear - birthYear).
Proof using Hinit.
  rewrite InitCircuit_r1cs. unfold AgeCheck_r1cs, frontend.solver. cbn.
  apply Define_iff.
Qed.

(** The prover returns a proof exactly when the wrapped age is above 18,
    and that proof verifies against the public witness of the
    assignment. *)
Lemma generateZKProof_satisfied birthYear currentYear rp :
  18 < toFr (currentYear - birthYear) ->
  exists proof,
    generateZKProof pk r1cs birthYear currentYear rp
    = Ok (proof, {| BirthYear := Some birthYear;
                    CurrentYear := Some currentYear |})
    /\ verifyZKProof {| BirthYear := Some birthYear;
                        CurrentYear := Some currentYear |}
                     (Some proof) vk = Return None.
Proof using Hinit.
  intros Hage. apply solve_assignment in Hage.
  destruct (groth16.Prove_complete _ _ _ _ _ rp InitCircuit_Setup Hage)
    as [proof Hp].
  exists proof. unfold generateZKProof, verifyZKProof. cbn.
  rewrite Hp. cbn. split; [reflexivity|].
  erewrite groth16.Verify_complete;
    [reflexivity|exact InitCircuit_Setup|exact Hp|reflexivity].
Qed.

Lemma generateZKProof_unsatisfied birthYear currentYear rp :
  ~ 18 < toFr (currentYear - birthYear) ->
  is_Err (generateZKProof pk r1cs birthYear currentYear rp).
Proof using Hinit.
  intros Hage. unfold generateZKProof. cbn.
  destruct (groth16.Prove _ _ _ _) as [proof|e] eqn:Hp; cbn.
  - exfalso. apply Hage, solve_assignment.
    exact (groth16.Prove_solves _ _ _ _ _ _ _ InitCircuit_Setup Hp).
  - eexists; reflexivity.
Qed.

(** Issuance for a subject whose [birthDate] scans to [birthYear]. *)
Lemma IssueCredential_satisfied w subject env s birthYear :
  subject !! "birthDate"%string = Some (VString s) ->
  fmt.Sscanf s = Ok birthYear ->
  18 < toFr (Year (now_currentYear env) - birthYear) ->
  issued_and_verifies (IssueCredential w pk vk r1cs subject env) vk.
Proof using Hinit.
  intros Hs Hscan Hage.
  destruct (generateZKProof_satisfied birthYear _ (rand_Prove env) Hage)
    as (proof & Hgen & Hver).
  unfold issued_and_verifies, IssueCredential.
  rewrite Hs, Hscan, Hgen. cbn [snd].
  eexists _, _. split; [reflexivity|].
  unfold VerifyCredential. cbn [Proof]. rewrite Hver. reflexivity.
Qed.

Lemma IssueCredential_unsatisfied w subject env s birthYear :
  subject !! "birthDate"%string = Some (VString s) ->
  fmt.Sscanf s = Ok birthYear ->
  ~ 18 < toFr (Year (now_currentYear env) - birthYear) ->
  exists err,
    IssueCredential w pk vk r1cs subject env
    = (w, Err (Errorf "failed to generate ZKP proof: " err)).
Proof using Hinit.
  intros Hs Hscan Hage.
  destruct (generateZKProof_unsatisfied birthYear _ (rand_Prove env) Hage)
    as [err Hgen].
  exists err. unfold IssueCredential. rewrite Hs, Hscan, Hgen. reflexivity.
Qed.

End Protocol.

(** ** Issuance, whatever the backend *)

Section Issuance.

Context {B : groth16.Backend}.
Variables (w : Wallet B) (pk : groth16.ProvingKey)
          (vk : groth16.VerifyingKey) (r1cs : constraint.ConstraintSystem)
          (subject : gmap string value) (env : Env B).

(** A successful issuance went through every step of [IssueCredential]. *)
Lemma IssueCredential_Ok_inv cred circuit :
  snd (IssueCredential w pk vk r1cs subject env) = Ok (cred, circuit) ->
  exists s birthYear proof,
    subject !! "birthDate"%string = Some (VString s)
    /\ fmt.Sscanf s = Ok birthYear
    /\ generateZKProof pk r1cs birthYear (Year (now_currentYear env))
         (rand_Prove env) = Ok (proof, circuit)
    /\ cred = {| ID := fmt.Sprintf_urn_uuid (UnixNano (now_ID env));
                 Type_ := ["VerifiableCredential"; "eIDASIdentityCredential"]%string;
                 Issuer := "did:example:issuer123";
                 IssuanceDate := now_IssuanceDate env;
                 Subject := subject;
                 Proof := Some proof |}.
Proof.
  unfold IssueCredential.
  destruct (subject !! "birthDate"%string) as [[| | |s]|] eqn:Hs;
    try discriminate.
  destruct (fmt.Sscanf s) as [birthYear|e] eqn:Hscan; [|discriminate].
  destruct (generateZKProof _ _ _ _ _) as [[proof circuit']|e] eqn:Hgen;
    [|discriminate].
  cbn [snd]. intros [= <- <-]. exists s, birthYear, proof.
  split_and!; auto.
Qed.

(** The wallet grows by the returned credential, or stays as it was. *)
Lemma IssueCredential_wallet :
  match snd (IssueCredential w pk vk r1cs subject env) with
  | Ok (cred, _) =>
    fst (IssueCredential w pk vk r1cs subject env)
    = {| Credentials := Credentials w ++ [cred] |}
  | Err _ => fst (IssueCredential w pk vk r1cs subject env) = w
  end.
Proof.
  unfold IssueCredential.
  destruct (subject !! "birthDate"%string) as [[| | |s]|]; try reflexivity.
  destruct (fmt.Sscanf s) as [birthYear|e]; [|reflexivity].
  destruct (generateZKProof _ _ _ _ _) as [[proof circuit']|e]; reflexivity.
Qed.

(** The three ways [IssueCredential] fails. *)
Lemma IssueCredential_missing :
  (forall s, subject !! "birthDate"%string <> Some (VString s)) ->
  IssueCredential w pk vk r1cs subject env
  = (w, Err (errorString "birthDate field is missing or not a string")).
Proof.
  intros Hs. unfold IssueCredential.
  destruct (subject !! "birthDate"%string) as [[| | |s]|]; try reflexivity.
  exfalso. exact (Hs s eq_refl).
Qed.

Lemma IssueCredential_unparsable s err :
  subject !! "birthDate"%string = Some (VString s) ->
  fmt.Sscanf s = Err err ->
  IssueCredential w pk vk r1cs subject env
  = (w, Err (Errorf "failed to parse birth year: " err)).
Proof.
  intros Hs Hscan. unfold IssueCredential. rewrite Hs, Hscan. reflexivity.
Qed.

Lemma IssueCredential_parsed s birthYear :
  subject !! "birthDate"%string = Some (VString s) ->
  fmt.Sscanf s = Ok birthYear ->
  (exists cred circuit,
      snd (IssueCredential w pk vk r1cs subject env) = Ok (cred, circuit))
  \/ (exists err,
      snd (IssueCredential w pk vk r1cs subject env)
      = Err (Errorf "failed to generate ZKP proof: " err)).
Proof.
  intros Hs Hscan. unfold IssueCredential. rewrite Hs, Hscan.
  destruct (generateZKProof _ _ _ _ _) as [[proof circuit']|e]; cbn [snd];
    [left|right]; eauto.
Qed.

End Issuance.

(** ** The age predicate: completeness and soundness of issuance *)

(** For an age from 0 to 18 the prover fails, and so does issuance. *)
Lemma issuance_fails_up_to_18 (B : groth16.Backend) rs pk vk r1cs
    (w : Wallet B) subject env s birthYear :
  InitCircuit rs = Ok (pk, vk, r1cs) ->
  subject !! "birthDate"%string = Some (VString s) ->
  fmt.Sscanf s = Ok birthYear ->
  is_int (Year (now_currentYear env)) ->
  0 <= Year (now_currentYear env) - birthYear <= 18 ->
  exists err,
    IssueCredential w pk vk r1cs subject env
    = (w, Err (Errorf "failed to generate ZKP proof: " err)).
Proof.
  intros Hinit Hs Hscan Hyear Hage.
  apply (IssueCredential_unsatisfied rs pk vk r1cs Hinit w subject env s birthYear);
    [exact Hs|exact Hscan|].
  rewrite age_above_18_iff by eauto using Sscanf_is_int. lia.
Qed.

(** C1, as amended: for every subject whose [birthDate] scans to
    [birthYear], if [currentYear - birthYear > 18] then [IssueCredential]
    succeeds under the keys of one setup and the proof of the returned
    credential verifies.  The circuit asserts [Cmp(age, 18) = 1], so an age
    of exactly 18 is not enough. *)
Theorem issuance_complete_above_18 (B : groth16.Backend) rs pk vk r1cs
    (w : Wallet B) subject env s birthYear :
  InitCircuit rs = Ok (pk, vk, r1cs) ->
  subject !! "birthDate"%string = Some (VString s) ->
  fmt.Sscanf s = Ok birthYear ->
  is_int (Year (now_currentYear env)) ->
  18 < Year (now_currentYear env) - birthYear ->
  issued_and_verifies (IssueCredential w pk vk r1cs subject env) vk.
Proof.
  intros Hinit Hs Hscan Hyear Hage.
  apply (IssueCredential_satisfied rs pk vk r1cs Hinit w subject env s birthYear);
    [exact Hs|exact Hscan|].
  rewrite age_above_18_iff by eauto using Sscanf_is_int. lia.
Qed.

(** The subject of [main.go], born 1984, in 2024. *)
Lemma issuance_complete_above_18_witness :
  issued_and_verifies (sample.issue sample.subject) 1%nat.
Proof.
  apply (issuance_complete_above_18 ideal.backend 1%nat 1%nat 1%nat sample.r1cs
           sample.wallet sample.subject sample.env "1984-01-01" 1984).
  - reflexivity.
  - reflexivity.
  - reflexivity.
  - unfold is_int. simpl. lia.
  - simpl. lia.
Defined.

(** C1, as stated (the boundary [currentYear - birthYear = 18] included),
    fails: born 2006, issued in 2024. *)
Lemma issuance_at_age_18_fails :
  ~ (forall (B : groth16.Backend) rs pk vk r1cs (w : Wallet B) subject env
            s birthYear,
        InitCircuit rs = Ok (pk, vk, r1cs) ->
        subject !! "birthDate"%string = Some (VString s) ->
        fmt.Sscanf s = Ok birthYear ->
        is_int (Year (now_currentYear env)) ->
        18 <= Year (now_currentYear env) - birthYear ->
        issued_and_verifies (IssueCredential w pk vk r1cs subject env) vk).
Proof.
  intros H.
  destruct (H ideal.backend 1%nat 1%nat 1%nat sample.r1cs sample.wallet
              (sample.born (VString "2006-01-01")) sample.env
              "2006-01-01"%string 2006)
    as (cred & circuit & Hout & _).
  - reflexivity.
  - reflexivity.
  - reflexivity.
  - unfold is_int. simpl. lia.
  - simpl. lia.
  - assert (Hrun : snd (IssueCredential (B := ideal.backend) sample.wallet
                          1%nat 1%nat sample.r1cs
                          (sample.born (VString "2006-01-01")) sample.env)
                   = Err (Errorf "failed to generate ZKP proof: " ErrUnsatisfied))
      by (vm_compute; reflexivity).
    rewrite Hrun in Hout. discriminate.
Qed.

(** C2 at its failing inputs: when the birth year lies after the current
    year the field subtraction wraps, the circuit is satisfied, and
    [IssueCredential] returns a credential whose proof verifies, although
    [currentYear - birthYear < 18]. *)
Theorem issuance_succeeds_for_future_birth_year (B : groth16.Backend)
    rs pk vk r1cs (w : Wallet B) subject env s birthYear :
  InitCircuit rs = Ok (pk, vk, r1cs) ->
  subject !! "birthDate"%string = Some (VString s) ->
  fmt.Sscanf s = Ok birthYear ->
  is_int (Year (now_currentYear env)) ->
  Year (now_currentYear env) < birthYear ->
  issued_and_verifies (IssueCredential w pk vk r1cs subject env) vk.
Proof.
  intros Hinit Hs Hscan Hyear Hage.
  apply (IssueCredential_satisfied rs pk vk r1cs Hinit w subject env s birthYear);
    [exact Hs|exact Hscan|].
  rewrite age_above_18_iff by eauto using Sscanf_is_int. lia.
Qed.

(** A subject born 2030, in 2024. *)
Lemma issuance_succeeds_for_future_birth_year_witness :
  issued_and_verifies
    (sample.issue (sample.born (VString "2030-01-01"))) 1%nat.
Proof.
  apply (issuance_succeeds_for_future_birth_year ideal.backend 1%nat 1%nat
           1%nat sample.r1cs sample.wallet
           (sample.born (VString "2030-01-01")) sample.env "2030-01-01" 2030).
  - reflexivity.
  - reflexivity.
  - reflexivity.
  - unfold is_int. simpl. lia.
  - simpl. lia.
Defined.

(** C4 at its failing inputs: for Go ints with [currentYear < birthYear]
    the comparison of the circuit answers 1, the constraint holds, and
    [generateZKProof] returns a proof that [verifyZKProof] accepts. *)
Theorem negative_age_satisfies_circuit birthYear currentYear :
  is_int birthYear -> is_int currentYear -> currentYear < birthYear ->
  api.Cmp (api.Sub (toFr currentYear) (toFr birthYear)) (toFr 18) = toFr 1
  /\ Define {| BirthYear := toFr birthYear; CurrentYear := toFr currentYear |}
     = Ok ()
  /\ forall (B : groth16.Backend) rs pk vk r1cs rp,
       InitCircuit rs = Ok (pk, vk, r1cs) ->
       exists proof,
         generateZKProof pk r1cs birthYear currentYear rp
         = Ok (proof, {| BirthYear := Some birthYear;
                         CurrentYear := Some currentYear |})
         /\ verifyZKProof {| BirthYear := Some birthYear;
                             CurrentYear := Some currentYear |}
              (Some proof) vk = Return None.
Proof.
  intros Hb Hc Hlt.
  assert (Hage : 18 < toFr (currentYear - birthYear))
    by (apply age_above_18_iff; auto).
  split_and!.
  - rewrite Sub_toFr. pose proof ScalarField_large.
    pose proof (toFr_range (currentYear - birthYear)).
    rewrite (toFr_small 18) in * by lia. rewrite Cmp_spec by lia.
    unfold cmp3. apply Z.ltb_lt in Hage. rewrite Hage. reflexivity.
  - apply Define_iff, Hage.
  - intros B rs pk vk r1cs rp Hinit.
    exact (generateZKProof_satisfied rs pk vk r1cs Hinit birthYear currentYear
             rp Hage).
Qed.

(** Birth year 2030, current year 2024. *)
Lemma negative_age_satisfies_circuit_witness :
  Define {| BirthYear := toFr 2030; CurrentYear := toFr 2024 |} = Ok ().
Proof.
  apply (negative_age_satisfies_circuit 2030 2024).
  - unfold is_int. lia.
  - unfold is_int. lia.
  - lia.
Defined.

(** ** The credential envelope *)

(** C3 at its failing inputs, which are all successful issuances: the
    [Subject] of an issued credential is the supplied claims map, unchanged,
    so it holds the [birthDate] string in plaintext, and the assignment
    returned with the credential holds the birth year read from it, although
    the circuit file calls [BirthYear] the private input, kept private. *)
Theorem issued_subject_is_supplied_subject (B : groth16.Backend)
    (w : Wallet B) pk vk r1cs subject env cred circuit :
  snd (IssueCredential w pk vk r1cs subject env) = Ok (cred, circuit) ->
  Subject cred = subject
  /\ exists s birthYear,
       Subject cred !! "birthDate"%string = Some (VString s)
       /\ fmt.Sscanf s = Ok birthYear
       /\ BirthYear circuit = Some birthYear.
Proof.
  intros (s & birthYear & proof & Hs & Hscan & Hgen & ->)%IssueCredential_Ok_inv.
  cbn [Subject]. split; [reflexivity|]. exists s, birthYear.
  split_and!; [exact Hs|exact Hscan|].
  unfold generateZKProof in Hgen. cbn in Hgen.
  destruct (groth16.Prove _ _ _ _); cbn in Hgen; [|discriminate].
  injection Hgen as Hp Hc. rewrite <- Hc. reflexivity.
Qed.

(** The credential issued for the subject of [main.go]. *)
Lemma issued_subject_is_supplied_subject_witness :
  Subject sample.cred = sample.subject.
Proof.
  apply (issued_subject_is_supplied_subject ideal.backend sample.wallet
           1%nat 1%nat sample.r1cs sample.subject sample.env sample.cred
           {| BirthYear := Some 1984; CurrentYear := Some 2024 |}).
  vm_compute. reflexivity.
Defined.

(** C3, as stated, fails: the credential issued for the subject of
    [main.go] holds the string ["1984-01-01"]. *)
Lemma issued_subject_holds_birthDate :
  ~ (forall (B : groth16.Backend) (w : Wallet B) pk vk r1cs subject env
            cred circuit s,
        snd (IssueCredential w pk vk r1cs subject env) = Ok (cred, circuit) ->
        subject !! "birthDate"%string = Some (VString s) ->
        ~ holds_value (Subject cred) (VString s)).
Proof.
  intros H.
  destruct (snd (sample.issue sample.subject)) as [[cred circuit]|e] eqn:Hout.
  - apply (H ideal.backend sample.wallet 1%nat 1%nat sample.r1cs
             sample.subject sample.env cred circuit "1984-01-01"%string Hout).
    + reflexivity.
    + exists "birthDate"%string.
      unfold sample.issue in Hout.
      apply IssueCredential_Ok_inv in Hout
        as (s & birthYear & proof & _ & _ & _ & ->).
      reflexivity.
  - vm_compute in Hout. discriminate.
Qed.

(** The other fields of the envelope carry nothing of the subject: under
    one environment they are the same for any two subjects. *)
Lemma issued_envelope_apart_from_Subject (B : groth16.Backend)
    (w w' : Wallet B) pk vk r1cs subject subject' env
    cred circuit cred' circuit' :
  snd (IssueCredential w pk vk r1cs subject env) = Ok (cred, circuit) ->
  snd (IssueCredential w' pk vk r1cs subject' env) = Ok (cred', circuit') ->
  ID cred = ID cred' /\ Type_ cred = Type_ cred'
  /\ Issuer cred = Issuer cred' /\ IssuanceDate cred = IssuanceDate cred'.
Proof.
  intros (s & b & p & _ & _ & _ & ->)%IssueCredential_Ok_inv
         (s' & b' & p' & _ & _ & _ & ->)%IssueCredential_Ok_inv.
  split_and!; reflexivity.
Qed.

(** C8, as amended: an issued credential carries exactly the type tags
    ["VerifiableCredential"] and ["eIDASIdentityCredential"]. *)
Theorem issued_type_tags (B : groth16.Backend)
    (w : Wallet B) pk vk r1cs subject env cred circuit :
  snd (IssueCredential w pk vk r1cs subject env) = Ok (cred, circuit) ->
  Type_ cred = ["VerifiableCredential"; "eIDASIdentityCredential"]%string.
Proof.
  intros (s & birthYear & proof & _ & _ & _ & ->)%IssueCredential_Ok_inv.
  reflexivity.
Qed.

(** The credential issued for the subject of [main.go]. *)
Lemma issued_type_tags_witness :
  Type_ sample.cred = ["VerifiableCredential"; "eIDASIdentityCredential"]%string.
Proof.
  apply (issued_type_tags ideal.backend sample.wallet 1%nat 1%nat
           sample.r1cs sample.subject sample.env sample.cred
           {| BirthYear := Some 1984; CurrentYear := Some 2024 |}).
  vm_compute. reflexivity.
Defined.

(** C8, as stated, fails: the tag ["AgeEligibilityCredential"] is not in
    the type list of the credential issued for the subject of [main.go]. *)
Lemma issued_type_lacks_AgeEligibilityCredential :
  ~ (forall (B : groth16.Backend) (w : Wallet B) pk vk r1cs subject env
            cred circuit,
        snd (IssueCredential w pk vk r1cs subject env) = Ok (cred, circuit) ->
        In "VerifiableCredential"%string (Type_ cred)
        /\ In "AgeEligibilityCredential"%string (Type_ cred)).
Proof.
  intros H.
  destruct (snd (sample.issue sample.subject)) as [[cred circuit]|e] eqn:Hout.
  - destruct (H ideal.backend sample.wallet 1%nat 1%nat sample.r1cs
                sample.subject sample.env cred circuit Hout) as [_ Hin].
    unfold sample.issue in Hout.
    apply IssueCredential_Ok_inv in Hout
      as (s & birthYear & proof & _ & _ & _ & ->).
    cbn in Hin. destruct Hin as [[=]|[[=]|[]]].
  - vm_compute in Hout. discriminate.
Qed.

(** ** The wallet *)

(** C5, as amended: [IssueCredential] itself appends to the wallet: after a
    successful issuance the credential list is the old one followed by the
    returned credential (after a failed one it is unchanged). *)
Theorem issuance_appends_to_wallet (B : groth16.Backend)
    (w : Wallet B) pk vk r1cs subject env :
  match snd (IssueCredential w pk vk r1cs subject env) with
  | Ok (cred, _) =>
    Credentials (fst (IssueCredential w pk vk r1cs subject env))
    = Credentials w ++ [cred]
  | Err _ => fst (IssueCredential w pk vk r1cs subject env) = w
  end.
Proof.
  pose proof (IssueCredential_wallet w pk vk r1cs subject env) as H.
  destruct (snd (IssueCredential w pk vk r1cs subject env)) as [[cred c]|e];
    [|exact H].
  rewrite H. reflexivity.
Qed.

(** C5, as stated, fails: issuing for the subject of [main.go] into an
    empty wallet leaves one credential in it. *)
Lemma issuance_mutates_wallet :
  ~ (forall (B : groth16.Backend) (w : Wallet B) pk vk r1cs subject env,
        fst (IssueCredential w pk vk r1cs subject env) = w).
Proof.
  intros H.
  specialize (H ideal.backend sample.wallet 1%nat 1%nat sample.r1cs
                sample.subject sample.env).
  apply (f_equal (fun w => length (Credentials w))) in H.
  vm_compute in H. discriminate.
Qed.

(** C9: whenever [IssueCredential] returns an error, the wallet is the one
    it was called with. *)
Theorem issuance_error_leaves_wallet (B : groth16.Backend)
    (w : Wallet B) pk vk r1cs subject env err :
  snd (IssueCredential w pk vk r1cs subject env) = Err err ->
  fst (IssueCredential w pk vk r1cs subject env) = w.
Proof.
  intros Herr.
  pose proof (IssueCredential_wallet w pk vk r1cs subject env) as H.
  rewrite Herr in H. exact H.
Qed.

(** A failed issuance: the claim ["not-a-date"]. *)
Lemma issuance_error_leaves_wallet_witness :
  fst (sample.issue (sample.born (VString "not-a-date"))) = sample.wallet.
Proof.
  apply (issuance_error_leaves_wallet ideal.backend sample.wallet 1%nat 1%nat
           sample.r1cs (sample.born (VString "not-a-date")) sample.env
           (Errorf "failed to parse birth year: " ErrExpectedInteger)).
  vm_compute. reflexivity.
Defined.

(** ** Verification *)



(** C10: two credentials that hold the same proof verify alike, whatever
    their other fields. *)
Theorem verification_ignores_envelope (B : groth16.Backend)
    (circuit : AgeCheckCircuit frontend.Variable_)
    (cred cred' : Credential B) (vk : groth16.VerifyingKey) :
  Proof cred = Proof cred' ->
  VerifyCredential circuit cred vk = VerifyCredential circuit cred' vk.
Proof.
  intros Hproof. unfold VerifyCredential. rewrite Hproof. reflexivity.
Qed.

(** The issued credential and another envelope around its proof. *)
Lemma verification_ignores_envelope_witness :
  VerifyCredential {| BirthYear := Some 1984; CurrentYear := Some 2024 |}
    sample.cred 1%nat
  = VerifyCredential {| BirthYear := Some 1984; CurrentYear := Some 2024 |}
      sample.forged 1%nat.
Proof.
  apply (verification_ignores_envelope ideal.backend
           {| BirthYear := Some 1984; CurrentYear := Some 2024 |}
           sample.cred sample.forged 1%nat).
  reflexivity.
Defined.

(** ** The [birthDate] claim *)

(** C7, as amended: [IssueCredential] fails with the missing-claim error
    exactly when [birthDate] is absent or is not a string; for a string, it
    fails with the parse error exactly when the string does not begin,
    after blanks, with an optionally signed run of decimal digits that fits
    a Go [int].  What follows the digits is not examined.  In both cases
    the wallet is unchanged and no proof is made; ["not-a-date"] is
    refused with the parse error. *)
Theorem birthDate_claim_errors (B : groth16.Backend)
    (w : Wallet B) pk vk r1cs subject env :
  (snd (IssueCredential w pk vk r1cs subject env)
   = Err (errorString "birthDate field is missing or not a string")
   <-> forall s, subject !! "birthDate"%string <> Some (VString s))
  /\ (forall s,
         subject !! "birthDate"%string = Some (VString s) ->
         (exists err,
             snd (IssueCredential w pk vk r1cs subject env)
             = Err (Errorf "failed to parse birth year: " err))
         <-> ~ exists v rest,
               leading_int (fmt.readable fmt.hugeWid (utf8.runes s)) v rest)
  /\ (subject !! "birthDate"%string = Some (VString "not-a-date") ->
      IssueCredential w pk vk r1cs subject env
      = (w, Err (Errorf "failed to parse birth year: " ErrExpectedInteger))).
Proof.
  split_and!.
  - split.
    + intros Herr s Hs.
      destruct (fmt.Sscanf s) as [birthYear|e] eqn:Hscan.
      * destruct (IssueCredential_parsed w pk vk r1cs subject env s birthYear
                    Hs Hscan) as [(cred & circuit & Hout)|(err & Hout)];
          rewrite Hout in Herr; discriminate.
      * rewrite (IssueCredential_unparsable w pk vk r1cs subject env s e Hs Hscan)
          in Herr. discriminate.
    + intros Hs. rewrite IssueCredential_missing by exact Hs. reflexivity.
  - intros s Hs. split.
    + intros [err Herr] (v & rest & Hlead).
      assert (Hscan : fmt.Sscanf s = Ok v) by (apply Sscanf_Ok; eauto).
      destruct (IssueCredential_parsed w pk vk r1cs subject env s v Hs Hscan)
        as [(cred & circuit & Hout)|(err' & Hout)];
        rewrite Hout in Herr; discriminate.
    + intros Hlead. destruct (fmt.Sscanf s) as [v|e] eqn:Hscan.
      * exfalso. apply Hlead. apply Sscanf_Ok in Hscan as [rest Hrest]. eauto.
      * exists e.
        rewrite (IssueCredential_unparsable w pk vk r1cs subject env s e Hs Hscan).
        reflexivity.
  - intros Hs.
    apply (IssueCredential_unparsable w pk vk r1cs subject env _ _ Hs).
    reflexivity.
Qed.

(** The claim ["not-a-date"]. *)
Lemma birthDate_claim_errors_witness :
  sample.issue (sample.born (VString "not-a-date"))
  = (sample.wallet,
     Err (Errorf "failed to parse birth year: " ErrExpectedInteger)).
Proof.
  apply (birthDate_claim_errors ideal.backend sample.wallet 1%nat 1%nat
           sample.r1cs (sample.born (VString "not-a-date")) sample.env).
  reflexivity.
Defined.

(** C7, as stated, fails: ["1984"] is not a [YYYY-MM-DD] date, and
    [IssueCredential] does not fail with the parse error on it. *)
Lemma birthDate_1984_is_accepted :
  ~ (forall (B : groth16.Backend) (w : Wallet B) pk vk r1cs subject env s,
        subject !! "birthDate"%string = Some (VString s) ->
        (exists err,
            snd (IssueCredential w pk vk r1cs subject env)
            = Err (Errorf "failed to parse birth year: " err))
        <-> is_YYYY_MM_DD s = false).
Proof.
  intros H.
  destruct (H ideal.backend sample.wallet 1%nat 1%nat sample.r1cs
              (sample.born (VString "1984")) sample.env "1984"%string eq_refl)
    as [_ Hrej].
  destruct (Hrej eq_refl) as [err Herr].
  vm_compute in Herr. discriminate.
Qed.

(** * Further properties *)

(** ** The relation the circuit encodes *)

Lemma Define_spec (birthYear currentYear : Fr) :
  Define {| BirthYear := birthYear; CurrentYear := currentYear |} = Ok ()
  <-> 18 < (currentYear - birthYear) mod ecc.BN254_ScalarField.
Proof.
  unfold Define. cbn [BirthYear CurrentYear]. unfold api.Sub.
  fold (toFr (currentYear - birthYear)).
  pose proof (toFr_range (currentYear - birthYear)) as Hr.
  pose proof ScalarField_large as Hq.
  set (age := toFr (currentYear - birthYear)) in *.
  rewrite (toFr_small 18), (toFr_small 1) by lia.
  rewrite Cmp_spec by lia. unfold cmp3.
  rewrite (toFr_small 1), (toFr_small 0), (toFr_wrap (-1)) by lia.
  unfold api.AssertIsEqual.
  destruct (Z.ltb_spec 18 age) as [Hlt|Hge].
  - simpl. tauto.
  - destruct (Z.eqb_spec age 18) as [Heq|Hne].
    + simpl. split; [discriminate|lia].
    + destruct (Z.eqb_spec (-1 + ecc.BN254_ScalarField) 1) as [E|E]; [lia|].
      simpl. split; [discriminate|lia].
Qed.

(** X1: on a witness of one public value and one secret value, as
    [NewWitness] builds them, the constraint system that [InitCircuit]
    returns is satisfied exactly when the difference in the field, public
    minus secret, has a representative above 18; this for all values, those
    that come from no Go int included. *)
Theorem InitCircuit_r1cs_accepts (B : groth16.Backend) rs pk vk r1cs
    (birthYear currentYear : Fr) :
  InitCircuit rs = Ok (pk, vk, r1cs) ->
  r1cs {| witness.public := [currentYear]; witness.secret := [birthYear] |}
  = Ok ()
  <-> 18 < (currentYear - birthYear) mod ecc.BN254_ScalarField.
Proof.
  intros Hinit. rewrite (InitCircuit_r1cs rs pk vk r1cs Hinit).
  unfold AgeCheck_r1cs, frontend.solver. cbn [witness.public witness.secret].
  apply Define_spec.
Qed.

(** The witness of the assignment 1984 / 2024. *)
Lemma InitCircuit_r1cs_accepts_witness :
  18 < (2024 - 1984) mod ecc.BN254_ScalarField.
Proof.
  apply (InitCircuit_r1cs_accepts ideal.backend 1%nat 1%nat 1%nat sample.r1cs
           1984 2024 eq_refl).
  vm_compute. reflexivity.
Defined.

(** ** When issuance succeeds, and how it fails *)

(** X2: under the keys of one setup and a clock year that is a Go int,
    [IssueCredential] succeeds exactly when [birthDate] is a string that
    scans to a year more than 18 below the current year, or above it; and
    whenever it succeeds the proof of the credential verifies. *)
Theorem issuance_succeeds_iff (B : groth16.Backend) rs pk vk r1cs
    (w : Wallet B) subject env :
  InitCircuit rs = Ok (pk, vk, r1cs) ->
  is_int (Year (now_currentYear env)) ->
  (is_Ok (snd (IssueCredential w pk vk r1cs subject env))
   <-> exists s birthYear,
         subject !! "birthDate"%string = Some (VString s)
         /\ fmt.Sscanf s = Ok birthYear
         /\ (18 < Year (now_currentYear env) - birthYear
             \/ Year (now_currentYear env) < birthYear))
  /\ (is_Ok (snd (IssueCredential w pk vk r1cs subject env))
      -> issued_and_verifies (IssueCredential w pk vk r1cs subject env) vk).
Proof.
  intros Hinit Hyear.
  assert (Hiff : is_Ok (snd (IssueCredential w pk vk r1cs subject env))
            <-> exists s birthYear,
                subject !! "birthDate"%string = Some (VString s)
                /\ fmt.Sscanf s = Ok birthYear
                /\ 18 < toFr (Year (now_currentYear env) - birthYear)).
  { split.
    - intros [[cred circuit] Hout].
      apply IssueCredential_Ok_inv in Hout
        as (s & birthYear & proof & Hs & Hscan & Hgen & _).
      exists s, birthYear. split_and!; [exact Hs|exact Hscan|].
      destruct (Z.lt_ge_cases 18 (toFr (Year (now_currentYear env) - birthYear)))
        as [Hlt|Hge]; [exact Hlt|exfalso].
      destruct (generateZKProof_unsatisfied rs pk vk r1cs Hinit birthYear
                  (Year (now_currentYear env)) (rand_Prove env) ltac:(lia))
        as [err Herr].
      rewrite Herr in Hgen. discriminate.
    - intros (s & birthYear & Hs & Hscan & Hage).
      destruct (IssueCredential_satisfied rs pk vk r1cs Hinit w subject env
                  s birthYear Hs Hscan Hage) as (cred & circuit & Hout & _).
      eexists. exact Hout. }
  split.
  - rewrite Hiff. split.
    + intros (s & birthYear & Hs & Hscan & Hage). exists s, birthYear.
      split_and!; [exact Hs|exact Hscan|].
      apply age_above_18_iff; eauto using Sscanf_is_int.
    + intros (s & birthYear & Hs & Hscan & Hage). exists s, birthYear.
      split_and!; [exact Hs|exact Hscan|].
      apply age_above_18_iff; eauto using Sscanf_is_int.
  - intros (s & birthYear & Hs & Hscan & Hage)%Hiff.
    exact (IssueCredential_satisfied rs pk vk r1cs Hinit w subject env
             s birthYear Hs Hscan Hage).
Qed.

(** The subject of [main.go] in 2000: sixteen years do not suffice. *)
Lemma issuance_succeeds_iff_witness :
  ~ is_Ok (snd (IssueCredential (B := ideal.backend) sample.wallet 1%nat 1%nat
                  sample.r1cs sample.subject run.env2000)).
Proof.
  intros Hok.
  destruct (issuance_succeeds_iff ideal.backend 1%nat 1%nat 1%nat sample.r1cs
              sample.wallet sample.subject run.env2000 eq_refl) as [Hiff _].
  - unfold is_int. cbn. lia.
  - apply Hiff in Hok as (s & birthYear & Hs & Hscan & Hage).
    assert (Es : sample.subject !! "birthDate"%string
                 = Some (VString "1984-01-01")) by reflexivity.
    rewrite Es in Hs. injection Hs as <-.
    assert (Ey : fmt.Sscanf "1984-01-01" = Ok 1984) by reflexivity.
    rewrite Ey in Hscan. injection Hscan as <-. cbn in Hage. lia.
Defined.

(** X3: an error of [IssueCredential] is one of three: the missing-claim
    error, when [birthDate] is absent or not a string; the scan error of
    [Sscanf], wrapped; or the error of the backend's prover on the witness
    of the two years, wrapped.  Creating the witness never fails. *)
Theorem issuance_error_cases (B : groth16.Backend) (w : Wallet B)
    pk vk r1cs subject env e :
  snd (IssueCredential w pk vk r1cs subject env) = Err e ->
  (e = errorString "birthDate field is missing or not a string"
   /\ forall s, subject !! "birthDate"%string <> Some (VString s))
  \/ (exists s err,
         subject !! "birthDate"%string = Some (VString s)
         /\ fmt.Sscanf s = Err err
         /\ e = Errorf "failed to parse birth year: " err)
  \/ (exists s birthYear err,
         subject !! "birthDate"%string = Some (VString s)
         /\ fmt.Sscanf s = Ok birthYear
         /\ groth16.Prove r1cs pk
              {| witness.public := [toFr (Year (now_currentYear env))];
                 witness.secret := [toFr birthYear] |} (rand_Prove env)
            = Err err
         /\ e = Errorf "failed to generate ZKP proof: " err).
Proof.
  unfold IssueCredential.
  destruct (subject !! "birthDate"%string) as [[| | |s]|] eqn:Hs;
    try (intros [= <-]; left; split; [reflexivity|discriminate]).
  destruct (fmt.Sscanf s) as [birthYear|err] eqn:Hscan.
  - unfold generateZKProof. cbn.
    destruct (groth16.Prove _ _ _ _) as [proof|err] eqn:Hp; cbn;
      [discriminate|].
    intros [= <-]. right. right. exists s, birthYear, err. auto.
  - intros [= <-]. right. left. exists s, err. auto.
Qed.

(** The subject of [main.go] in 2000. *)
Lemma issuance_error_cases_witness :
  exists s birthYear,
    sample.subject !! "birthDate"%string = Some (VString s)
    /\ fmt.Sscanf s = Ok birthYear.
Proof.
  destruct (issuance_error_cases ideal.backend sample.wallet 1%nat 1%nat
              sample.r1cs sample.subject run.env2000
              (Errorf "failed to generate ZKP proof: " ErrUnsatisfied)
              ltac:(vm_compute; reflexivity))
    as [[Hmiss _]|[(s & err & _ & _ & Hparse)|Hgen]].
  - discriminate Hmiss.
  - discriminate Hparse.
  - destruct Hgen as (s & birthYear & err & Hs & Hscan & _).
    exists s, birthYear. split; assumption.
Defined.

(** ** What the proof and the identifier depend on *)

Lemma Sprintf_urn_uuid_inj n n' :
  fmt.Sprintf_urn_uuid n = fmt.Sprintf_urn_uuid n' -> n = n'.
Proof.
  unfold fmt.Sprintf_urn_uuid. intros H.
  apply (inj (String.append "urn:uuid:")) in H.
  exact (inj pretty _ _ H).
Qed.

(** X4: the identifiers of two issued credentials are equal exactly when
    the two nanosecond readings of the clock are: the identifier carries
    nothing of the subject, the keys or the proof. *)
Theorem issued_ID_equal_iff (B : groth16.Backend)
    (w w' : Wallet B) pk pk' vk vk' r1cs r1cs' subject subject' env env'
    cred circuit cred' circuit' :
  snd (IssueCredential w pk vk r1cs subject env) = Ok (cred, circuit) ->
  snd (IssueCredential w' pk' vk' r1cs' subject' env') = Ok (cred', circuit') ->
  ID cred = ID cred' <-> UnixNano (now_ID env) = UnixNano (now_ID env').
Proof.
  intros (s & b & p & _ & _ & _ & ->)%IssueCredential_Ok_inv
         (s' & b' & p' & _ & _ & _ & ->)%IssueCredential_Ok_inv.
  cbn [ID]. split.
  - apply Sprintf_urn_uuid_inj.
  - intros ->. reflexivity.
Qed.

(** The subject of [main.go] and a subject born 2030, at one clock
    reading. *)
Lemma issued_ID_equal_iff_witness :
  ID sample.cred = ID (sample.cred_of (sample.born (VString "2030-01-01"))).
Proof.
  apply (issued_ID_equal_iff ideal.backend sample.wallet sample.wallet
           1%nat 1%nat 1%nat 1%nat sample.r1cs sample.r1cs
           sample.subject (sample.born (VString "2030-01-01"))
           sample.env sample.env
           sample.cred {| BirthYear := Some 1984; CurrentYear := Some 2024 |}
           (sample.cred_of (sample.born (VString "2030-01-01")))
           {| BirthYear := Some 2030; CurrentYear := Some 2024 |}).
  - vm_compute. reflexivity.
  - vm_compute. reflexivity.
  - reflexivity.
Defined.

(** Two issuances whose [birthDate] strings scan alike end alike, the
    [Subject] of the credential apart. *)
Lemma IssueCredential_same_scan (B : groth16.Backend) (w : Wallet B)
    pk vk r1cs subject subject' env s s' :
  subject !! "birthDate"%string = Some (VString s) ->
  subject' !! "birthDate"%string = Some (VString s') ->
  fmt.Sscanf s = fmt.Sscanf s' ->
  erase_Subject (snd (IssueCredential w pk vk r1cs subject env))
  = erase_Subject (snd (IssueCredential w pk vk r1cs subject' env)).
Proof.
  intros Hs Hs' Hscan. unfold IssueCredential. rewrite Hs, Hs', Hscan.
  destruct (fmt.Sscanf s') as [birthYear|err]; [|reflexivity].
  destruct (generateZKProof _ _ _ _ _) as [[proof circuit]|err]; reflexivity.
Qed.

(** X5: the outcome of [IssueCredential] depends on the subject through
    its [birthDate] claim alone: two subjects with the same [birthDate]
    entry get the same error, or credentials with the same proof,
    identifier, type, issuer and date, and the same assignment. *)
Theorem issuance_depends_on_birthDate_alone (B : groth16.Backend)
    (w : Wallet B) pk vk r1cs subject subject' env :
  subject !! "birthDate"%string = subject' !! "birthDate"%string ->
  erase_Subject (snd (IssueCredential w pk vk r1cs subject env))
  = erase_Subject (snd (IssueCredential w pk vk r1cs subject' env)).
Proof.
  intros Hsame.
  destruct (subject !! "birthDate"%string) as [[| | |s]|] eqn:Hs;
    try (unfold IssueCredential; rewrite Hs, <- Hsame; reflexivity).
  apply (IssueCredential_same_scan B w pk vk r1cs subject subject' env s s);
    [exact Hs|symmetry; exact Hsame|reflexivity].
Qed.

(** The subject of [main.go] and the same [birthDate] with no other
    claim. *)
Lemma issuance_depends_on_birthDate_alone_witness :
  erase_Subject (snd (sample.issue sample.subject))
  = erase_Subject (snd (sample.issue run.anonymous)).
Proof.
  apply (issuance_depends_on_birthDate_alone ideal.backend sample.wallet
           1%nat 1%nat sample.r1cs sample.subject run.anonymous sample.env).
  reflexivity.
Defined.

(** X6: for [birthDate] claims of the form YYYY-MM-DD, month and day play
    no part: two dates of the same year end alike, the [Subject] of the
    credential apart. *)
Theorem issuance_ignores_month_and_day (B : groth16.Backend)
    (w : Wallet B) pk vk r1cs subject subject' env s s' :
  subject !! "birthDate"%string = Some (VString s) ->
  subject' !! "birthDate"%string = Some (VString s') ->
  is_YYYY_MM_DD s = true -> is_YYYY_MM_DD s' = true ->
  take 4 (utf8.bytes s) = take 4 (utf8.bytes s') ->
  erase_Subject (snd (IssueCredential w pk vk r1cs subject env))
  = erase_Subject (snd (IssueCredential w pk vk r1cs subject' env)).
Proof.
  intros Hs Hs' Hdate Hdate' Hyear.
  apply (IssueCredential_same_scan B w pk vk r1cs subject subject' env s s');
    [exact Hs|exact Hs'|].
  destruct (Sscanf_YYYY_MM_DD s Hdate) as (y1 & y2 & y3 & y4 & r & Hb & ->).
  destruct (Sscanf_YYYY_MM_DD s' Hdate')
    as (z1 & z2 & z3 & z4 & r' & Hb' & ->).
  rewrite Hb, Hb' in Hyear. cbn in Hyear. injection Hyear as -> -> -> ->.
  reflexivity.
Qed.

(** Born on the first and on the last day of 1984. *)
Lemma issuance_ignores_month_and_day_witness :
  erase_Subject (snd (sample.issue sample.subject))
  = erase_Subject (snd (sample.issue (sample.born (VString "1984-12-31")))).
Proof.
  apply (issuance_ignores_month_and_day ideal.backend sample.wallet
           1%nat 1%nat sample.r1cs sample.subject
           (sample.born (VString "1984-12-31")) sample.env
           "1984-01-01" "1984-12-31"); reflexivity.
Defined.

(** ** Verification, case by case *)

(** X7: [VerifyCredential] answers [true] exactly when both variables of
    the assignment are set, the credential holds a proof, and the backend
    accepts that proof against the public witness made of the current year
    alone. *)
Theorem VerifyCredential_true_iff (B : groth16.Backend)
    (circuit : AgeCheckCircuit frontend.Variable_) (cred : Credential B)
    (vk : groth16.VerifyingKey) :
  VerifyCredential circuit cred vk = Return (true, None)
  <-> exists birthYear currentYear proof,
        circuit = {| BirthYear := Some birthYear;
                     CurrentYear := Some currentYear |}
        /\ Proof cred = Some proof
        /\ groth16.Verify proof vk
             {| witness.public := [toFr currentYear];
                witness.secret := [] |} = Ok ().
Proof.
  unfold VerifyCredential, verifyZKProof.
  destruct circuit as [[birthYear|] [currentYear|]]; cbn;
    try (split; [discriminate|intros (? & ? & ? & [=] & _)]).
  destruct (Proof cred) as [proof|]; cbn;
    [|split; [discriminate|intros (? & ? & ? & _ & [=] & _)]].
  destruct (groth16.Verify proof vk _) as [[]|err] eqn:Hv; cbn.
  - split; [|reflexivity]. intros _. exists birthYear, currentYear, proof. auto.
  - split; [discriminate|].
    intros (b & c & p & [= <- <-] & [= <-] & Hv'). congruence.
Qed.

(** X8: with a nil [Proof], as in the zero [Credential] that
    [IssueCredential] returns next to an error, [VerifyCredential] panics
    on [*proof] once both variables of the assignment are set; with a
    variable unset it returns the witness error before it reaches the
    proof. *)
Theorem VerifyCredential_nil_Proof (B : groth16.Backend)
    (circuit : AgeCheckCircuit frontend.Variable_) (cred : Credential B)
    (vk : groth16.VerifyingKey) :
  Proof cred = None ->
  (forall birthYear currentYear,
      circuit = {| BirthYear := Some birthYear;
                   CurrentYear := Some currentYear |} ->
      VerifyCredential circuit cred vk = Panic)
  /\ (BirthYear circuit = None \/ CurrentYear circuit = None ->
      VerifyCredential circuit cred vk
      = Return (false, Some ErrMissingAssignment)).
Proof.
  intros Hnil. unfold VerifyCredential, verifyZKProof. rewrite Hnil. split.
  - intros birthYear currentYear ->. reflexivity.
  - destruct circuit as [[birthYear|] [currentYear|]]; cbn;
      intros [[=]|[=]]; reflexivity.
Qed.

(** A credential with a nil proof and the assignment 1984 / 2024. *)
Lemma VerifyCredential_nil_Proof_witness :
  VerifyCredential {| BirthYear := Some 1984; CurrentYear := Some 2024 |}
    run.unproved 1%nat = Panic.
Proof.
  apply (proj1 (VerifyCredential_nil_Proof ideal.backend
                  {| BirthYear := Some 1984; CurrentYear := Some 2024 |}
                  run.unproved 1%nat eq_refl) 1984 2024).
  reflexivity.
Defined.

(** ** The command *)

Lemma InitCircuit_Ok_iff (B : groth16.Backend) rs pk vk r1cs :
  InitCircuit rs = Ok (pk, vk, r1cs)
  <-> r1cs = AgeCheck_r1cs /\ groth16.Setup AgeCheck_r1cs rs = Ok (pk, vk).
Proof.
  unfold InitCircuit, frontend.Compile. cbn. fold AgeCheck_r1cs.
  destruct (groth16.Setup AgeCheck_r1cs rs) as [[pk' vk']|err]; cbn.
  - split; [intros [= <- <- <-]|intros [-> [= <- <-]]]; auto.
  - split; [discriminate|intros [_ [=]]].
Qed.

Lemma InitCircuit_Err_iff (B : groth16.Backend) rs err :
  InitCircuit rs = Err err <-> groth16.Setup AgeCheck_r1cs rs = Err err.
Proof.
  unfold InitCircuit, frontend.Compile. cbn. fold AgeCheck_r1cs.
  destruct (groth16.Setup AgeCheck_r1cs rs) as [[pk' vk']|err']; cbn.
  - split; discriminate.
  - split; intros [= <-]; reflexivity.
Qed.

(** [verifyCredential] ends by returning or by the panic of
    [VerifyCredential]; [main] does not end in [Fatal] past the setup. *)
Lemma main_after_setup (B : groth16.Backend) rs (env : Env B) pk vk r1cs :
  InitCircuit rs = Ok (pk, vk, r1cs) ->
  forall err, snd (main rs env) <> Fatal err.
Proof.
  intros Hinit err. unfold main. cbn [NewWallet]. rewrite Hinit.
  destruct (issueCredential pk vk r1cs _ env) as [[w' stdout1] p].
  destruct (verifyCredential p vk) as [stdout2 [[]|]]; discriminate.
Qed.

(** X10: [main] ends in [log.Fatal] exactly when the setup of the backend
    fails on the compiled circuit; it then carries the error of the setup,
    and the one line the program itself has printed is the setup failure. *)
Theorem main_fatal_iff (B : groth16.Backend) rs (env : Env B) err :
  (snd (main rs env) = Fatal err
   <-> groth16.Setup AgeCheck_r1cs rs = Err err)
  /\ (snd (main rs env) = Fatal err ->
      fst (main rs env) = [Printf "Failed to setup: %v\n" (OError err)]).
Proof.
  assert (Hfatal : forall e, groth16.Setup AgeCheck_r1cs rs = Err e ->
            main rs env
            = ([Printf "Failed to setup: %v\n" (OError e)], Fatal e)).
  { intros e Hsetup. unfold main. cbn [NewWallet].
    rewrite (proj2 (InitCircuit_Err_iff B rs e) Hsetup).
    unfold InitCircuit_stdout, frontend.Compile. fold AgeCheck_r1cs.
    rewrite Hsetup. reflexivity. }
  assert (Hinv : snd (main rs env) = Fatal err ->
            groth16.Setup AgeCheck_r1cs rs = Err err).
  { intros Hmain.
    destruct (InitCircuit rs) as [[[pk vk] r1cs]|err'] eqn:Hinit.
    - exfalso. exact (main_after_setup B rs env pk vk r1cs Hinit err Hmain).
    - apply InitCircuit_Err_iff in Hinit.
      rewrite (Hfatal err' Hinit) in Hmain. injection Hmain as <-.
      exact Hinit. }
  split.
  - split; [exact Hinv|]. intros Hsetup. rewrite (Hfatal err Hsetup).
    reflexivity.
  - intros Hmain. rewrite (Hfatal err (Hinv Hmain)). reflexivity.
Qed.

(** A setup that fails. *)
Example main_fatal_failing_setup :
  main (B := failing.backend) 0%nat
    (@mkEnv failing.backend sample.t2024 sample.t2024 sample.t2024 0%nat)
  = ([Printf "Failed to setup: %v\n" (OError (ErrBackend 1))],
     Fatal (ErrBackend 1)).
Proof. reflexivity. Qed.


Lemma generateZKProof_stdout_spec (B : groth16.Backend) pk r1cs
    birthYear currentYear rp :
  generateZKProof_stdout pk r1cs birthYear currentYear rp
  = match generateZKProof pk r1cs birthYear currentYear rp with
    | Ok _ => []
    | Err err => [Printf "Failed to generate proof: %v\n" (OError err)]
    end.
Proof.
  unfold generateZKProof_stdout, generateZKProof. cbn.
  destruct (groth16.Prove _ _ _ _); reflexivity.
Qed.

Lemma InitCircuit_stdout_Ok (B : groth16.Backend) rs pk vk r1cs :
  InitCircuit rs = Ok (pk, vk, r1cs) -> InitCircuit_stdout rs = [].
Proof.
  intros [_ Hsetup]%InitCircuit_Ok_iff.
  unfold InitCircuit_stdout, frontend.Compile. fold AgeCheck_r1cs.
  rewrite Hsetup. reflexivity.
Qed.

(** The subject that [issueCredential] builds is [sample.subject]. *)
Lemma issueCredential_unfold (B : groth16.Backend) pk vk r1cs
    (w : Wallet B) env :
  issueCredential pk vk r1cs w env
  = match IssueCredential w pk vk r1cs sample.subject env with
    | (w', Err err) =>
      (w', IssueCredential_stdout pk r1cs sample.subject env
           ++ [Printf "Failed to issue credential: %v\n" (OError err)], None)
    | (w', Ok (cred, circuit)) =>
      (w', IssueCredential_stdout pk r1cs sample.subject env
           ++ [Printf "Cred: %v\n" (OCred cred)], Some (cred, circuit))
    end.
Proof. reflexivity. Qed.

Lemma IssueCredential_stdout_main (B : groth16.Backend) pk r1cs (env : Env B) :
  IssueCredential_stdout pk r1cs sample.subject env
  = generateZKProof_stdout pk r1cs 1984 (Year (now_currentYear env))
      (rand_Prove env).
Proof. reflexivity. Qed.

Lemma IssueCredential_main (B : groth16.Backend) (w : Wallet B) pk vk r1cs env :
  IssueCredential w pk vk r1cs sample.subject env
  = match generateZKProof pk r1cs 1984 (Year (now_currentYear env))
            (rand_Prove env) with
    | Err err => (w, Err (Errorf "failed to generate ZKP proof: " err))
    | Ok (zkpProof, circuit) =>
      let cred :=
        {| ID := fmt.Sprintf_urn_uuid (UnixNano (now_ID env));
           Type_ := ["VerifiableCredential"; "eIDASIdentityCredential"]%string;
           Issuer := "did:example:issuer123";
           IssuanceDate := now_IssuanceDate env;
           Subject := sample.subject;
           Proof := Some zkpProof |} in
      ({| Credentials := Credentials w ++ [cred] |}, Ok (cred, circuit))
    end.
Proof. reflexivity. Qed.



(** X12: with a setup that succeeds and a clock year from 1984 to 2002,
    the proof generation fails, [issueCredential] reports it and returns
    nil pointers, and [main] crashes in [verifyCredential] on the nil
    credential. *)
Theorem main_crashes_when_issuance_fails (B : groth16.Backend)
    rs (env : Env B) pk vk r1cs :
  InitCircuit rs = Ok (pk, vk, r1cs) ->
  is_int (Year (now_currentYear env)) ->
  0 <= Year (now_currentYear env) - 1984 <= 18 ->
  exists err,
    main rs env
    = ([Printf "Failed to generate proof: %v\n" (OError err);
        Printf "Failed to issue credential: %v\n"
          (OError (Errorf "failed to generate ZKP proof: " err))],
       Crashed).
Proof.
  intros Hinit Hyear Hage.
  assert (Hfr : ~ 18 < toFr (Year (now_currentYear env) - 1984)).
  { rewrite age_above_18_iff by (unfold is_int in *; lia). lia. }
  destruct (generateZKProof_unsatisfied rs pk vk r1cs Hinit 1984 _
              (rand_Prove env) Hfr) as [err Hgen].
  exists err. unfold main. cbn [NewWallet]. rewrite Hinit.
  rewrite issueCredential_unfold, IssueCredential_stdout_main,
    generateZKProof_stdout_spec, IssueCredential_main, Hgen.
  rewrite (InitCircuit_stdout_Ok B rs pk vk r1cs Hinit). reflexivity.
Qed.

(** The run of 2000 on the ideal backend. *)
Lemma main_crashes_when_issuance_fails_witness :
  snd (main (B := ideal.backend) 1%nat run.env2000) = Crashed.
Proof.
  destruct (main_crashes_when_issuance_fails ideal.backend 1%nat run.env2000
              1%nat 1%nat sample.r1cs eq_refl) as [err Hmain].
  - unfold is_int. cbn. lia.
  - cbn. lia.
  - rewrite Hmain. reflexivity.
Defined.

Lemma verifyCredential_lines (B : groth16.Backend)
    (p : option (Credential B * AgeCheckCircuit frontend.Variable_)) vk :
  Forall not_the_invalid_verdict (fst (verifyCredential p vk)).
Proof.
  destruct p as [[c circuit]|]; [|constructor].
  unfold verifyCredential, VerifyCredential, verifyZKProof_stdout, verifyZKProof.
  destruct (frontend.NewWitness circuit) as [witness|err]; cbn;
    [|repeat constructor; discriminate].
  destruct (Proof c) as [proof|]; cbn; [|constructor].
  destruct (groth16.Verify proof vk _) as [[]|err]; cbn;
    repeat constructor; discriminate.
Qed.

(** X13: the line "Credential is not valid." is never printed, neither by
    [verifyCredential] nor by [main]: [VerifyCredential] answers [false]
    with an error only, and [verifyCredential] then reports the error. *)
Theorem never_prints_not_valid (B : groth16.Backend) :
  (forall (p : option (Credential B * AgeCheckCircuit frontend.Variable_)) vk,
      ~ In (Println "Credential is not valid.") (fst (verifyCredential p vk)))
  /\ (forall rs (env : Env B),
         ~ In (Println "Credential is not valid.") (fst (main rs env))).
Proof.
  assert (Hno : forall ls : list (line B),
             Forall not_the_invalid_verdict ls ->
             ~ In (Println "Credential is not valid.") ls).
  { intros ls Hls Hin. rewrite Forall_forall in Hls.
    apply list_elem_of_In in Hin. exact (Hls _ Hin eq_refl). }
  split.
  - intros p vk. apply Hno, verifyCredential_lines.
  - intros rs env. apply Hno. unfold main. cbn [NewWallet].
    assert (Hinit_lines : Forall not_the_invalid_verdict (InitCircuit_stdout rs)).
    { unfold InitCircuit_stdout, frontend.Compile.
      destruct (groth16.Setup _ rs); repeat constructor; discriminate. }
    destruct (InitCircuit rs) as [[[pk vk] r1cs]|err]; [|exact Hinit_lines].
    rewrite issueCredential_unfold, IssueCredential_stdout_main,
      generateZKProof_stdout_spec, IssueCredential_main.
    destruct (generateZKProof _ _ _ _ _) as [[proof circuit]|err]; cbn -[verifyCredential].
    + match goal with
      | |- context [verifyCredential ?p ?k] =>
        pose proof (verifyCredential_lines B p k) as Hv;
        destruct (verifyCredential p k) as [stdout2 r]
      end.
      cbn [fst] in Hv |- *. apply Forall_app. split; [exact Hinit_lines|].
      constructor; [discriminate|exact Hv].
    + cbn. apply Forall_app. split; [exact Hinit_lines|].
      repeat constructor; discriminate.
Qed.
